(** * MyCloneDashboard: the data layer of the financial dashboard

    A shallow embedding of the data-normalisation and aggregation code of
    [App.tsx] (currency parser, record normaliser, mock data generator,
    data loader, filter options, filtering, statistics),
    of the sort of [DashboardCharts.tsx] and of [getFinancialInsight],
    together with the parts of the JavaScript runtime this code calls.

    - A JavaScript number is an IEEE 754 binary64 value: Rocq's primitive
      [float], with [nan], [infinity] and both zeros.
    - A JavaScript string is a sequence of code units.  [string] is used,
      each character standing for the code unit with the same number
      (code units 0..255).
    - A value that comes out of [response.json()] is a tree: [value].
    - [Math.random] is an oracle threaded through the code as state; an
      exception is a [Throw] result that [try ... catch] handles. *)

From Stdlib Require Import ZArith List String Ascii Bool Floats Lia.
From Stdlib Require Import DecimalString Permutation Sorted OrdersEx.
From Stdlib Require Import RelationClasses.
Import ListNotations.

Set Warnings "-inexact-float,-register-all".
Local Open Scope string_scope.
Local Open Scope Z_scope.

(** ** Numbers *)

Module JS.

Definition number : Set := float.

(** [isNaN x] for a number [x]: only NaN differs from itself. *)
Definition isNaN (x : number) : bool := negb (PrimFloat.eqb x x).

(** [x > 0] and [x < 0]; both are false on NaN. *)
Definition gt0 (x : number) : bool := PrimFloat.ltb 0%float x.
Definition lt0 (x : number) : bool := PrimFloat.ltb x 0%float.

(** The number value of the decimal [m * 10 ^ e10], signed by [neg]:
    the binary64 value nearest to it, ties to even, infinite when it
    overflows (ECMA-262, "the Number value for" a mathematical value).
    An integer is rounded directly, a fraction through one exact
    division, so that the result is rounded once. *)
Definition number_of_decimal (neg : bool) (m : Z) (e10 : Z) : number :=
  match m with
  | Z0 => SF2Prim (S754_zero neg)
  | Zpos p =>
      if 0 <=? e10
      then SF2Prim (binary_normalize prec emax
                      (cond_Zopp neg (m * 10 ^ e10)) 0 false)
      else SF2Prim (SFdiv prec emax (S754_finite neg p 0)
                      (S754_finite false (Z.to_pos (10 ^ (- e10))) 0))
  | Zneg _ => nan
  end.

(** The number value of an integer. *)
Definition number_of_Z (z : Z) : number :=
  SF2Prim (binary_normalize prec emax z 0 false).

(** [Math.floor]: the greatest integer not above [x]; NaN, the infinities
    and both zeros are returned unchanged. *)
Definition Math_floor (x : number) : number :=
  match Prim2SF x with
  | S754_finite s m e =>
      if 0 <=? e then x
      else
        number_of_Z (cond_Zopp s (Zpos m) / 2 ^ (- e))
  | _ => x
  end.

(** ** Strings *)

Definition is_digit (c : ascii) : bool :=
  let n := nat_of_ascii c in (48 <=? n)%nat && (n <=? 57)%nat.

Definition digit_value (c : ascii) : Z := Z.of_nat (nat_of_ascii c) - 48.

(** White space and line terminators among the code units 0..255: TAB, LF,
    VT, FF, CR, SP, NBSP. *)
Definition is_space (c : ascii) : bool :=
  let n := nat_of_ascii c in
  ((9 <=? n)%nat && (n <=? 13)%nat) || (n =? 32)%nat || (n =? 160)%nat.

Fixpoint chars (s : string) : list ascii :=
  match s with
  | EmptyString => []
  | String c s' => c :: chars s'
  end.

Fixpoint text (l : list ascii) : string :=
  match l with
  | [] => EmptyString
  | c :: l' => String c (text l')
  end.

Fixpoint drop_spaces (l : list ascii) : list ascii :=
  match l with
  | c :: l' => if is_space c then drop_spaces l' else l
  | [] => []
  end.

Definition trim (l : list ascii) : list ascii :=
  rev (drop_spaces (rev (drop_spaces l))).

(** The longest run of decimal digits at the front, and what follows. *)
Fixpoint take_digits (l : list ascii) : list ascii * list ascii :=
  match l with
  | c :: l' =>
      if is_digit c
      then let (ds, rest) := take_digits l' in (c :: ds, rest)
      else ([], l)
  | [] => ([], [])
  end.

Definition digits_value (ds : list ascii) : Z :=
  fold_left (fun acc c => 10 * acc + digit_value c) ds 0.

Fixpoint starts_with (p l : list ascii) : bool :=
  match p, l with
  | [], _ => true
  | a :: p', b :: l' => Ascii.eqb a b && starts_with p' l'
  | _ :: _, [] => false
  end.

(** A parsed [StrUnsignedDecimalLiteral]: [Infinity], or the digits read
    as [mantissa * 10 ^ exponent]. *)
Inductive literal :=
| LitInfinity
| LitDecimal (mantissa : Z) (exponent : Z).

(** An optional [ExponentPart]; when the text after [e] is not a signed
    integer, nothing is consumed. *)
Definition parse_exponent (l : list ascii) : Z * list ascii :=
  match l with
  | c :: l1 =>
      if Ascii.eqb c "e" || Ascii.eqb c "E" then
        let '(neg, l2) :=
          match l1 with
          | s :: t =>
              if Ascii.eqb s "-" then (true, t)
              else if Ascii.eqb s "+" then (false, t)
              else (false, l1)
          | [] => (false, l1)
          end in
        let (ds, rest) := take_digits l2 in
        match ds with
        | [] => (0, l)
        | _ => (cond_Zopp neg (digits_value ds), rest)
        end
      else (0, l)
  | [] => (0, l)
  end.

(** The longest prefix that is a [StrUnsignedDecimalLiteral]. *)
Definition parse_unsigned (l : list ascii) : option (literal * list ascii) :=
  if starts_with (chars "Infinity") l then Some (LitInfinity, skipn 8 l)
  else
    let (ip, r1) := take_digits l in
    let after_point :=
      match r1 with
      | c :: r2 => if Ascii.eqb c "." then Some r2 else None
      | [] => None
      end in
    match after_point with
    | Some r2 =>
        let (fp, r3) := take_digits r2 in
        match ip, fp with
        | [], [] => None
        | _, _ =>
            let (e, r4) := parse_exponent r3 in
            Some (LitDecimal (digits_value (ip ++ fp))
                    (e - Z.of_nat (List.length fp)), r4)
        end
    | None =>
        match ip with
        | [] => None
        | _ =>
            let (e, r4) := parse_exponent r1 in
            Some (LitDecimal (digits_value ip) e, r4)
        end
    end.

Definition literal_value (neg : bool) (t : literal) : number :=
  match t with
  | LitInfinity => if neg then neg_infinity else infinity
  | LitDecimal m e => number_of_decimal neg m e
  end.

(** The longest prefix that is a [StrDecimalLiteral] (an optional sign and
    an unsigned literal), as its value, and what follows. *)
Definition parse_decimal (l : list ascii) : option (number * list ascii) :=
  let '(neg, l1) :=
    match l with
    | s :: t =>
        if Ascii.eqb s "-" then (true, t)
        else if Ascii.eqb s "+" then (false, t)
        else (false, l)
    | [] => (false, l)
    end in
  match parse_unsigned l1 with
  | Some (t, rest) => Some (literal_value neg t, rest)
  | None => None
  end.

(** [parseFloat(s)]: leading white space is skipped, the longest prefix
    that is a decimal literal is converted, anything after it is
    ignored; NaN when there is no such prefix. *)
Definition parseFloat (s : string) : number :=
  match parse_decimal (drop_spaces (chars s)) with
  | Some (x, _) => x
  | None => nan
  end.

(** Digits of a [NonDecimalIntegerLiteral] in base [b]. *)
Definition base_digit (b : Z) (c : ascii) : option Z :=
  let n := Z.of_nat (nat_of_ascii c) in
  let d :=
    if (48 <=? n) && (n <=? 57) then n - 48
    else if (97 <=? n) && (n <=? 102) then n - 87
    else if (65 <=? n) && (n <=? 70) then n - 55
    else 99 in
  if d <? b then Some d else None.

Fixpoint base_value (b : Z) (acc : Z) (l : list ascii) : option Z :=
  match l with
  | [] => Some acc
  | c :: l' =>
      match base_digit b c with
      | Some d => base_value b (b * acc + d) l'
      | None => None
      end
  end.

Definition parse_non_decimal (l : list ascii) : option number :=
  match l with
  | z :: k :: (d :: _) as ds =>
      if Ascii.eqb z "0" then
        let base :=
          if Ascii.eqb k "x" || Ascii.eqb k "X" then Some 16
          else if Ascii.eqb k "o" || Ascii.eqb k "O" then Some 8
          else if Ascii.eqb k "b" || Ascii.eqb k "B" then Some 2
          else None in
        match base with
        | Some b =>
            match base_value b 0 ds with
            | Some v => Some (number_of_Z v)
            | None => None
            end
        | None => None
        end
      else None
  | _ => None
  end.

(** [Number(s)] for a string (StringToNumber): white space around the
    text is dropped; the empty text is [0]; the whole text must be a
    decimal literal or a [0x], [0o], [0b] integer, else NaN. *)
Definition Number_of_string (s : string) : number :=
  match trim (chars s) with
  | [] => 0%float
  | l =>
      match parse_decimal l with
      | Some (x, []) => x
      | _ =>
          match parse_non_decimal l with
          | Some x => x
          | None => nan
          end
      end
  end.

(** *** Number::toString

    [ToString] of a number in radix 10 (ECMA-262, Number::toString): the
    shortest digit string [s] (of [k] digits, scaled by [10 ^ (n - k)])
    whose number value is [x], the one nearest to [x] when several have
    that length, laid out in positional or exponent form after [n]. *)

(** A positive finite [x = m * 2 ^ e] as the fraction [num / den]. *)
Definition fraction_of (m : positive) (e : Z) : Z * Z :=
  if 0 <=? e then (Zpos m * 2 ^ e, 1) else (Zpos m, 2 ^ (- e)).

(** [x * 10 ^ p] as a fraction. *)
Definition scale10 (q : Z * Z) (p : Z) : Z * Z :=
  let (num, den) := q in
  if 0 <=? p then (num * 10 ^ p, den) else (num, den * 10 ^ (- p)).

(** The least [n], counting up from [n0], with [x < 10 ^ n]. *)
Fixpoint decimal_exponent (fuel : nat) (q : Z * Z) (n0 : Z) : Z :=
  match fuel with
  | O => n0
  | S fuel' =>
      let (num, den) := scale10 q (- n0) in
      if num <? den then n0 else decimal_exponent fuel' q (n0 + 1)
  end.

(** The [k]-digit candidates on either side of [x], kept when they read
    back as [x]; [None] when neither does. *)
Definition digits_at (x : number) (q : Z * Z) (n k : Z) : option (Z * Z) :=
  let (num, den) := scale10 q (k - n) in
  let lo := num / den in
  let hi := lo + 1 in
  let ok s := PrimFloat.eqb (number_of_decimal false s (n - k)) x in
  let below := num - lo * den in
  let above := hi * den - num in
  let pick_hi := if hi =? 10 ^ k then (10 ^ (k - 1), n + 1) else (hi, n) in
  match ok lo, ok hi with
  | true, true =>
      if below <? above then Some (lo, n)
      else if above <? below then Some pick_hi
      else if Z.even lo then Some (lo, n) else Some pick_hi
  | true, false => Some (lo, n)
  | false, true => Some pick_hi
  | false, false => None
  end.

Fixpoint shortest_digits (fuel : nat) (x : number) (q : Z * Z) (n k : Z)
  : Z * Z * Z :=
  match fuel with
  | O => (0, n, k)
  | S fuel' =>
      match digits_at x q n k with
      | Some (s, n') => (s, n', k)
      | None => shortest_digits fuel' x q n (k + 1)
      end
  end.

Definition decimal_digits (z : Z) : string :=
  NilZero.string_of_uint (N.to_uint (Z.to_N z)).

Fixpoint zeros (n : nat) : string :=
  match n with
  | O => ""
  | S n' => String "0" (zeros n')
  end.

Definition layout (s n k : Z) : string :=
  let ds := decimal_digits s in
  if (-6 <? n) && (n <=? 21) then
    if k <=? n then ds ++ zeros (Z.to_nat (n - k))
    else if 0 <? n then
      String.substring 0 (Z.to_nat n) ds ++ "." ++
      String.substring (Z.to_nat n) (Z.to_nat (k - n)) ds
    else "0." ++ zeros (Z.to_nat (- n)) ++ ds
  else
    let e := n - 1 in
    let sign := if e <? 0 then "-" else "+" in
    let head := String.substring 0 1 ds in
    let tail := String.substring 1 (Z.to_nat (k - 1)) ds in
    (if k =? 1 then head else head ++ "." ++ tail)
    ++ "e" ++ sign ++ decimal_digits (Z.abs e).

Definition Number_toString (x : number) : string :=
  match Prim2SF x with
  | S754_nan => "NaN"
  | S754_zero _ => "0"
  | S754_infinity s => if s then "-Infinity" else "Infinity"
  | S754_finite sg m e =>
      let q := fraction_of m e in
      let n := decimal_exponent 700 q (-330) in
      let '(s, n', k) := shortest_digits 17 (PrimFloat.abs x) q n 1 in
      (if sg then "-" else "") ++ layout s n' k
  end.

(** [s.split(sep)] for a one-character separator. *)
Fixpoint split_chars (sep : ascii) (cur : list ascii) (l : list ascii)
  : list string :=
  match l with
  | [] => [text (rev cur)]
  | c :: l' =>
      if Ascii.eqb c sep then text (rev cur) :: split_chars sep [] l'
      else split_chars sep (c :: cur) l'
  end.

Definition split (sep : ascii) (s : string) : list string :=
  split_chars sep [] (chars s).

(** [s.substr(start, len)] for non-negative arguments. *)
Definition substr (start len : nat) (s : string) : string :=
  String.substring start len s.

End JS.

(** ** Exceptions and the random oracle *)

Inductive exn :=
| TypeError
| SyntaxError
| Error (message : string).

Inductive result (A : Type) :=
| Ok (a : A)
| Throw (e : exn).
Arguments Ok {A} a.
Arguments Throw {A} e.

(** One call of [Math.random()]: the number drawn, and the text
    [toString(36)] renders it as.  ECMA-262 leaves the digits of a
    non-decimal rendering to the implementation, so the text is taken
    from the host with the draw; it is ["0"] for the draw [0] and ["0."]
    followed by at least one digit for every other draw. *)
Record draw := mkDraw { drawn : JS.number; base36 : string }.

(** The draws to come, in order. *)
Definition rng := nat -> draw.

(** A computation that may draw random numbers and may throw; the oracle
    moves on even when the computation throws. *)
Definition M (A : Type) := rng -> result A * rng.

Definition ret {A} (a : A) : M A := fun g => (Ok a, g).

Definition bind {A B} (c : M A) (k : A -> M B) : M B :=
  fun g =>
    match c g with
    | (Ok a, g') => k a g'
    | (Throw e, g') => (Throw e, g')
    end.

Definition throw {A} (e : exn) : M A := fun g => (Throw e, g).

Definition lift {A} (r : result A) : M A := fun g => (r, g).

Definition Math_random : M draw :=
  fun g => (Ok (g O), fun n => g (S n)).

Notation "x <- c1 ;; c2" := (bind c1 (fun x => c2))
  (at level 61, c1 at next level, right associativity).

Fixpoint mapM {A B} (f : A -> M B) (l : list A) : M (list B) :=
  match l with
  | [] => ret []
  | x :: l' => y <- f x ;; ys <- mapM f l' ;; ret (y :: ys)
  end.

(** ** Values *)

(** What [response.json()] yields, and [undefined] for a property that is
    not there.  An object is the list of its own properties. *)
Inductive value :=
| VUndefined
| VNull
| VBool (b : bool)
| VNumber (n : JS.number)
| VString (s : string)
| VObject (props : list (string * value))
| VArray (elems : list value).

Fixpoint own_property (key : string) (props : list (string * value))
  : option value :=
  match props with
  | [] => None
  | (k, v) :: props' =>
      if String.eqb k key then Some v else own_property key props'
  end.

(** [item[key]] for the keys this program reads, none of which is
    inherited from a prototype: an own property of an object, [undefined]
    on any other value, a [TypeError] on [null] and [undefined]. *)
Definition get (item : value) (key : string) : result value :=
  match item with
  | VUndefined | VNull => Throw TypeError
  | VObject props =>
      match own_property key props with
      | Some v => Ok v
      | None => Ok VUndefined
      end
  | _ => Ok VUndefined
  end.

(** What [||] and a condition take for true. *)
Definition truthy (v : value) : bool :=
  match v with
  | VUndefined | VNull => false
  | VBool b => b
  | VNumber n => negb (JS.isNaN n || PrimFloat.eqb n 0%float)
  | VString s => negb (String.eqb s "")
  | VObject _ | VArray _ => true
  end.

Definition join_comma (a b : string) : string := a ++ "," ++ b.

(** [val.toString()].  A parsed object inherits [Object.prototype.toString]
    unless it has an own property of that name, which then is no function
    and the call throws; an array joins its elements with commas, [null]
    and [undefined] elements as the empty text. *)
Fixpoint toString (val : value) : result string :=
  match val with
  | VUndefined | VNull => Throw TypeError
  | VBool b => Ok (if b then "true" else "false")
  | VNumber n => Ok (JS.Number_toString n)
  | VString s => Ok s
  | VObject props =>
      match own_property "toString" props with
      | Some _ => Throw TypeError
      | None => Ok "[object Object]"
      end
  | VArray elems =>
      (fix join (l : list value) : result string :=
         match l with
         | [] => Ok ""
         | x :: l' =>
             let sx :=
               match x with
               | VUndefined | VNull => Ok ""
               | _ => toString x
               end in
             match sx with
             | Throw e => Throw e
             | Ok s =>
                 match l' with
                 | [] => Ok s
                 | _ =>
                     match join l' with
                     | Ok r => Ok (join_comma s r)
                     | Throw e => Throw e
                     end
                 end
             end
         end) elems
  end.

(** ** Currency parser *)

(** [s.replace(/[^\d.-]/g, '')]: every character that is not a digit, a
    point or a minus sign is removed. *)
Definition keep_numeric (c : ascii) : bool :=
  JS.is_digit c || Ascii.eqb c "." || Ascii.eqb c "-".

Definition strip_non_numeric (s : string) : string :=
  JS.text (filter keep_numeric (JS.chars s)).

(** [parseCurrency]. *)
Definition parseCurrency (val : value) : result JS.number :=
  match val with
  | VNull | VUndefined | VString "" => Ok 0%float
  | VNumber n => Ok n
  | _ =>
      match toString val with
      | Throw e => Throw e
      | Ok s =>
          let cleaned := strip_non_numeric s in
          let parsed := JS.parseFloat cleaned in
          Ok (if JS.isNaN parsed then 0%float else parsed)
      end
  end.

(** ** Records *)

(** [DataRecord].  The interface of [types.ts] is [DataRecord string]; the
    object the normaliser builds from an [any] is a [DataRecord value],
    its [id], [name] and [monthYear] being whatever the payload held. *)
Record DataRecord (T : Type) := mkDataRecord {
  id : T;
  name : T;
  potentialRevenue : JS.number;
  invoiceAmount : JS.number;
  dollarsCollected : JS.number;
  expenseIncurred : JS.number;
  netRevenue : JS.number;
  monthYear : T
}.
Arguments mkDataRecord {T}.
Arguments id {T}.
Arguments name {T}.
Arguments potentialRevenue {T}.
Arguments invoiceAmount {T}.
Arguments dollarsCollected {T}.
Arguments expenseIncurred {T}.
Arguments netRevenue {T}.
Arguments monthYear {T}.

Record DashboardStats := mkStats {
  totalPotentialRevenue : JS.number;
  totalInvoiceAmount : JS.number;
  totalDollarsCollected : JS.number;
  totalExpenseIncurred : JS.number;
  totalNetRevenue : JS.number;
  collectionRate : JS.number
}.

Inductive LoadingStatus := IDLE | LOADING | SUCCESS | ERROR.

(** [Math.random().toString(36).substr(2, 9)]. *)
Definition random_id : M string :=
  d <- Math_random ;; ret (JS.substr 2 9 (base36 d)).

(** ** Record normaliser: the callback of [dataArray.map] *)

Definition amount (item : value) (key : string) : M JS.number :=
  lift (match get item key with
        | Ok v => parseCurrency v
        | Throw e => Throw e
        end).

(** [a || b]: [b] is evaluated only when [a] is falsy. *)
Definition or_else (a b : M value) : M value :=
  v <- a ;; if truthy v then ret v else b.

Definition prop (item : value) (key : string) : M value :=
  lift (get item key).

Definition normalize (item : value) : M (DataRecord value) :=
  pot <- amount item "Potential Revenue" ;;
  inv <- amount item "Invoice Amount" ;;
  coll <- amount item "Dollars Collected" ;;
  exp <- amount item "Expense Incurred" ;;
  raw_net <- prop item "Net Revenue" ;;
  net <- match raw_net with
         | VNull => ret (coll - exp)%float
         | _ => lift (parseCurrency raw_net)
         end ;;
  the_id <- or_else (prop item "Opportunity ID")
              (or_else (prop item "id")
                 (or_else (prop item "key")
                    (s <- random_id ;; ret (VString s)))) ;;
  the_name <- or_else (prop item "Name")
                (or_else (prop item "name")
                   (ret (VString "Unknown Entity"))) ;;
  the_month <- or_else (prop item "MM/YYYY")
                 (or_else (prop item "monthYear")
                    (ret (VString "01/2024"))) ;;
  ret {| id := the_id;
         name := the_name;
         potentialRevenue := pot;
         invoiceAmount := inv;
         dollarsCollected := coll;
         expenseIncurred := exp;
         netRevenue := net;
         monthYear := the_month |}.

(** ** Mock data generator *)

Definition mock_names : list string :=
  ["Acme Corp"; "Globex"; "Soylent Corp"; "Initech"; "Umbrella Co"].

Definition mock_months : list string :=
  ["01/2024"; "02/2024"; "03/2024"; "04/2024"; "05/2024"].

(** The body of the inner [forEach]: four draws, one record pushed. *)
Definition mock_record (the_name month : string) : M (DataRecord string) :=
  r1 <- Math_random ;;
  let pot := (JS.Math_floor (drawn r1 * 15000) + 5000)%float in
  let inv := (pot * 0.85)%float in
  r2 <- Math_random ;;
  let coll := (inv * (0.7 + drawn r2 * 0.3))%float in
  r3 <- Math_random ;;
  let exp := (JS.Math_floor (drawn r3 * 4000) + 500)%float in
  the_id <- random_id ;;
  ret {| id := the_id;
         name := the_name;
         potentialRevenue := pot;
         invoiceAmount := inv;
         dollarsCollected := coll;
         expenseIncurred := exp;
         netRevenue := (coll - exp)%float;
         monthYear := month |}.

(** [names.forEach(name => months.forEach(month => data.push(...)))]. *)
Fixpoint for_each_name (names : list string) : M (list (DataRecord string)) :=
  match names with
  | [] => ret []
  | n :: names' =>
      rows <- mapM (mock_record n) mock_months ;;
      more <- for_each_name names' ;;
      ret (rows ++ more)%list
  end.

Definition generateMockData : M (list (DataRecord string)) :=
  for_each_name mock_names.

(** ** Data loader *)

(** How the request ends: [fetch] rejects, or a response arrives whose
    body [response.json()] parses or rejects. *)
Inductive fetch_result :=
| FetchRejected
| FetchResponse (ok : bool) (status : Z) (body : option value).

Record AppState := mkApp {
  rawData : list (DataRecord value);
  status : LoadingStatus;
  usingMockData : bool
}.

Definition initial_state : AppState :=
  {| rawData := []; status := IDLE; usingMockData := false |}.

Definition setRawData (d : list (DataRecord value)) (st : AppState) :=
  {| rawData := d; status := status st; usingMockData := usingMockData st |}.
Definition setStatus (s : LoadingStatus) (st : AppState) :=
  {| rawData := rawData st; status := s; usingMockData := usingMockData st |}.
Definition setUsingMockData (b : bool) (st : AppState) :=
  {| rawData := rawData st; status := status st; usingMockData := b |}.

(** A typed record seen as the object it is. *)
Definition as_object (r : DataRecord string) : DataRecord value :=
  {| id := VString (id r);
     name := VString (name r);
     potentialRevenue := potentialRevenue r;
     invoiceAmount := invoiceAmount r;
     dollarsCollected := dollarsCollected r;
     expenseIncurred := expenseIncurred r;
     netRevenue := netRevenue r;
     monthYear := VString (monthYear r) |}.

(** The [try] block up to [formattedData]. *)
Definition formattedData (net : fetch_result) : M (list (DataRecord value)) :=
  match net with
  | FetchRejected => throw TypeError
  | FetchResponse ok code body =>
      if negb ok
      then throw (Error ("HTTP error! status: " ++
                         JS.Number_toString (JS.number_of_Z code)))
      else
        match body with
        | None => throw SyntaxError
        | Some data =>
            let dataArray :=
              match data with
              | VArray elems => elems
              | _ => [data]
              end in
            if (List.length dataArray =? 0)%nat
            then throw (Error "Empty data set returned")
            else mapM normalize dataArray
        end
  end.

(** [fetchData]: the application states after each [set...] call, in
    order, and the oracle left over. *)
Definition fetchData (net : fetch_result) (st : AppState) (g : rng)
  : list AppState * rng :=
  let s1 := setStatus LOADING st in
  match formattedData net g with
  | (Ok rows, g') =>
      let s2 := setRawData rows s1 in
      let s3 := setUsingMockData false s2 in
      let s4 := setStatus SUCCESS s3 in
      ([s1; s2; s3; s4], g')
  | (Throw _, g') =>
      match generateMockData g' with
      | (Ok mock, g'') =>
          let s2 := setRawData (map as_object mock) s1 in
          let s3 := setUsingMockData true s2 in
          let s4 := setStatus SUCCESS s3 in
          ([s1; s2; s3; s4], g'')
      | (Throw _, g'') => ([s1], g'')  (* an exception out of [catch] *)
      end
  end.

(** The state the loader leaves. *)
Definition loaded (net : fetch_result) (st : AppState) (g : rng) : AppState :=
  last (fst (fetchData net st g)) st.

(** ** Filter options, filtering, statistics *)

(** [Array.prototype.sort(comparefn)].  The sort is stable; [x] goes
    after [y] when [comparefn(x, y) > 0], and a NaN result counts as [0].
    ECMA-262 fixes the outcome for a consistent comparator only; the
    model inserts each element, from the last to the first, in front of
    the sorted rest. *)
Section Sort.
Context {A : Type} (comparefn : A -> A -> JS.number).

Fixpoint insert (x : A) (l : list A) : list A :=
  match l with
  | [] => [x]
  | y :: l' =>
      if JS.gt0 (comparefn x y) then y :: insert x l' else x :: l
  end.

Fixpoint sort (l : list A) : list A :=
  match l with
  | [] => []
  | x :: l' => insert x (sort l')
  end.
End Sort.

(** The comparator of [sort()] without argument, on strings: code unit
    order. *)
Definition default_compare (x y : string) : JS.number :=
  if String.ltb x y then (-1)%float
  else if String.ltb y x then 1%float
  else 0%float.

(** [new Set(list)] spread into an array: the distinct elements in the
    order of their first occurrence. *)
Definition Set_add (seen : list string) (x : string) : list string :=
  if existsb (String.eqb x) seen then seen else seen ++ [x].

Definition new_Set (l : list string) : list string :=
  fold_left Set_add l [].

Definition uniqueNames (rawData : list (DataRecord string)) : list string :=
  sort default_compare ("All" :: new_Set (map name rawData)).

(** [const [m, y] = a.split('/').map(Number)] and [y * 12 + m]; a missing
    second part is [undefined], which the product turns into NaN. *)
Definition month_key (a : string) : JS.number :=
  let parts := map JS.Number_of_string (JS.split "/" a) in
  let m := nth 0 parts nan in
  let y := nth 1 parts nan in
  (y * 12 + m)%float.

Definition month_compare (a b : string) : JS.number :=
  if String.eqb a "All" then (-1)%float
  else if String.eqb b "All" then 1%float
  else (month_key a - month_key b)%float.

Definition uniqueMonths (rawData : list (DataRecord string)) : list string :=
  sort month_compare ("All" :: new_Set (map monthYear rawData)).

Definition matches (filterName filterMonth : string) (r : DataRecord string)
  : bool :=
  let nameMatch := String.eqb filterName "All" || String.eqb (name r) filterName in
  let monthMatch :=
    String.eqb filterMonth "All" || String.eqb (monthYear r) filterMonth in
  nameMatch && monthMatch.

Definition filteredData (rawData : list (DataRecord string))
  (filterName filterMonth : string) : list (DataRecord string) :=
  filter (matches filterName filterMonth) rawData.

(** The accumulator of [reduce] and its step. *)
Record Totals := mkTotals {
  accPotentialRevenue : JS.number;
  accInvoiceAmount : JS.number;
  accDollarsCollected : JS.number;
  accExpenseIncurred : JS.number;
  accNetRevenue : JS.number
}.

Definition zero_totals : Totals :=
  {| accPotentialRevenue := 0%float;
     accInvoiceAmount := 0%float;
     accDollarsCollected := 0%float;
     accExpenseIncurred := 0%float;
     accNetRevenue := 0%float |}.

Definition add_record (acc : Totals) (curr : DataRecord string) : Totals :=
  {| accPotentialRevenue := (accPotentialRevenue acc + potentialRevenue curr)%float;
     accInvoiceAmount := (accInvoiceAmount acc + invoiceAmount curr)%float;
     accDollarsCollected := (accDollarsCollected acc + dollarsCollected curr)%float;
     accExpenseIncurred := (accExpenseIncurred acc + expenseIncurred curr)%float;
     accNetRevenue := (accNetRevenue acc + netRevenue curr)%float |}.

Definition stats (filteredData : list (DataRecord string)) : DashboardStats :=
  let s := fold_left add_record filteredData zero_totals in
  {| totalPotentialRevenue := accPotentialRevenue s;
     totalInvoiceAmount := accInvoiceAmount s;
     totalDollarsCollected := accDollarsCollected s;
     totalExpenseIncurred := accExpenseIncurred s;
     totalNetRevenue := accNetRevenue s;
     collectionRate :=
       if JS.gt0 (accInvoiceAmount s)
       then (accDollarsCollected s / accInvoiceAmount s * 100)%float
       else 0%float |}.

(** ** Charts: [DashboardCharts] *)

(** The comparator of [sortedData]: the records are compared by the
    decoded [monthYear]; there is no wildcard among them. *)
Definition chart_compare (a b : DataRecord string) : JS.number :=
  (month_key (monthYear a) - month_key (monthYear b))%float.

(** [[...data].sort(...)]: a sorted copy, [data] itself is left alone. *)
Definition sortedData (data : list (DataRecord string))
  : list (DataRecord string) :=
  sort chart_compare data.

(** ** Insight: [getFinancialInsight] *)

(** How [ai.models.generateContent] ends: it rejects, or it answers with
    a [text] that may be missing. *)
Inductive ai_outcome :=
| AiRejected
| AiResponse (text : option string).

Definition record_summary (r : DataRecord string) : string :=
  name r ++ ": Rev " ++ JS.Number_toString (dollarsCollected r)
  ++ ", Exp " ++ JS.Number_toString (expenseIncurred r)
  ++ ", Net " ++ JS.Number_toString (netRevenue r).

(** [records.map(...).join("; ")]. *)
Definition summary (records : list (DataRecord string)) : string :=
  String.concat "; " (map record_summary records).

Definition insight_prompt (records : list (DataRecord string)) : string :=
  "Analyze these financial records and provide a 1-sentence executive summary highlighting the most critical trend or concern. Records: "
  ++ summary records.

(** [getFinancialInsight(records)], given [process.env.API_KEY] and the
    remote model as the function from the prompt to its outcome. *)
Definition getFinancialInsight (api_key : option string)
  (generateContent : string -> ai_outcome)
  (records : list (DataRecord string)) : string :=
  let no_key :=
    match api_key with
    | None => true
    | Some k => String.eqb k ""
    end in
  if no_key || (List.length records =? 0)%nat
  then "Provide data to generate AI insights."
  else
    match generateContent (insight_prompt records) with
    | AiRejected => "Error generating AI insights."
    | AiResponse None => "Insight unavailable."
    | AiResponse (Some t) =>
        if String.eqb t "" then "Insight unavailable." else t
    end.

(** * Vocabulary of the statements *)

(** [l1] is [l2] with some elements left out, the others in their order. *)
Inductive subsequence {A : Type} : list A -> list A -> Prop :=
| sub_nil : subsequence [] []
| sub_keep x l1 l2 : subsequence l1 l2 -> subsequence (x :: l1) (x :: l2)
| sub_skip x l1 l2 : subsequence l1 l2 -> subsequence l1 (x :: l2).

(** The sum [reduce] computes: the additions are made from the left,
    starting at [0]. *)
Definition sum (xs : list JS.number) : JS.number :=
  fold_left PrimFloat.add xs 0%float.

(** [item[key]] where it cannot throw. *)
Definition read (item : value) (key : string) : value :=
  match get item key with
  | Ok v => v
  | Throw _ => VUndefined
  end.

Definition first_truthy (candidates : list value) : option value :=
  find truthy candidates.

Definition or_default (candidates : list value) (default : value) : value :=
  match first_truthy candidates with
  | Some v => v
  | None => default
  end.

Definition is_nullish (v : value) : bool :=
  match v with
  | VUndefined | VNull => true
  | _ => false
  end.

(** The conditional that resolves [net]. *)
Definition net_of (raw : value) (coll exp : JS.number) : result JS.number :=
  match raw with
  | VNull => Ok (coll - exp)%float
  | _ => parseCurrency raw
  end.

Definition is_ok {A} (r : result A) : bool :=
  match r with
  | Ok _ => true
  | Throw _ => false
  end.

(** An element the normaliser accepts: it is neither [null] nor
    [undefined], and none of its five amounts makes [parseCurrency]
    throw. *)
Definition normalizable (item : value) : bool :=
  negb (is_nullish item)
  && is_ok (parseCurrency (read item "Potential Revenue"))
  && is_ok (parseCurrency (read item "Invoice Amount"))
  && is_ok (parseCurrency (read item "Dollars Collected"))
  && is_ok (parseCurrency (read item "Expense Incurred"))
  && is_ok (net_of (read item "Net Revenue") 0%float 0%float).

(** The oracle after [n] draws. *)
Definition skip (n : nat) (g : rng) : rng := fun k => g (n + k)%nat.

(** The records [generateMockData] returns. *)
Definition mock_rows (g : rng) : list (DataRecord string) :=
  match fst (generateMockData g) with
  | Ok rows => rows
  | Throw _ => []
  end.

(** [dataArray], when the response is successful and its body parses. *)
Definition payload (net : fetch_result) : option (list value) :=
  match net with
  | FetchResponse true _ (Some (VArray elems)) => Some elems
  | FetchResponse true _ (Some data) => Some [data]
  | _ => None
  end.

Definition normalized_from (item : value) (r : DataRecord value) : Prop :=
  exists g1 g2, normalize item g1 = (Ok r, g2).

(** The loader fell back on the mock data. *)
Definition fell_back (final : AppState) : Prop :=
  usingMockData final = true
  /\ List.length (rawData final) = 25%nat
  /\ exists g', rawData final = map as_object (mock_rows g').

(** [MM/YYYY]: two digits, a slash, four digits. *)
Definition is_month_year (s : string) : bool :=
  match JS.chars s with
  | [m1; m2; sl; y1; y2; y3; y4] =>
      forallb JS.is_digit [m1; m2] && Ascii.eqb sl "/"
      && forallb JS.is_digit [y1; y2; y3; y4]
  | _ => false
  end.

(** [year * 12 + month] of a text in that form, as an integer. *)
Definition chronological (s : string) : Z :=
  match JS.chars s with
  | [m1; m2; _; y1; y2; y3; y4] =>
      JS.digits_value [y1; y2; y3; y4] * 12 + JS.digits_value [m1; m2]
  | _ => 0
  end.

(** The binary64 form of a positive integer below [2 ^ 53]: mantissa of
    53 bits, and its exponent. *)
Definition canon_mantissa (z : positive) : positive :=
  match (53 - Zpos (digits2_pos z))%Z with
  | Zpos d => Pos.iter xO z d
  | _ => z
  end.

Definition canon_exponent (z : positive) : Z := Zpos (digits2_pos z) - 53.

(** The number value of an integer, as a specification float. *)
Definition SF_of_Z (z : Z) : spec_float := binary_normalize prec emax z 0 false.

(** What [parseCurrency] makes of a parsed text. *)
Definition or_zero (parsed : JS.number) : JS.number :=
  if JS.isNaN parsed then 0%float else parsed.

(** Sample data. *)
Definition sample_rng : rng := fun _ => mkDraw 0.5%float "0.i".
Definition zero_rng : rng := fun _ => mkDraw 0%float "0".

Definition rec_named (n m : string) : DataRecord string :=
  {| id := "r"; name := n; potentialRevenue := 0%float;
     invoiceAmount := 0%float; dollarsCollected := 0%float;
     expenseIncurred := 0%float; netRevenue := 0%float;
     monthYear := m |}.

Definition invoice_without_net : value :=
  VObject [("Name", VString "Acme");
           ("Dollars Collected", VString "50");
           ("Expense Incurred", VString "10")].

Definition aliased_item : value :=
  VObject [("Opportunity ID", VString ""); ("id", VString "x7");
           ("Name", VString ""); ("name", VString "Bob")].

(** [year * 12 + month] of a record. *)
Definition chart_month (r : DataRecord string) : Z :=
  chronological (monthYear r).

(** Code unit order on texts. *)
Definition code_unit_le (a b : string) : Prop := String.compare a b <> Gt.

Definition invoice_with_null : value :=
  VObject [("Dollars Collected", VString "50");
           ("Expense Incurred", VString "10");
           ("Net Revenue", VNull)].

(** The record made of the defaults only. *)
Definition default_record (the_id : string) : DataRecord value :=
  {| id := VString the_id;
     name := VString "Unknown Entity";
     potentialRevenue := 0%float;
     invoiceAmount := 0%float;
     dollarsCollected := 0%float;
     expenseIncurred := 0%float;
     netRevenue := 0%float;
     monthYear := VString "01/2024" |}.

Definition is_scalar (v : value) : bool :=
  match v with
  | VBool _ | VNumber _ | VString _ => true
  | _ => false
  end.

(** * Sorting, sets and filters *)

Section SortFacts.
Context {A : Type} (cmp : A -> A -> JS.number).

Lemma insert_perm x l : Permutation (insert cmp x l) (x :: l).
Proof.
  induction l as [|y l IH]; simpl; [reflexivity|].
  destruct (JS.gt0 (cmp x y)); [|reflexivity].
  rewrite IH. apply perm_swap.
Qed.

Lemma sort_perm l : Permutation (sort cmp l) l.
Proof.
  induction l as [|x l IH]; simpl; [constructor|].
  rewrite insert_perm. now constructor.
Qed.

Lemma sort_In x l : In x (sort cmp l) <-> In x l.
Proof.
  split; apply Permutation_in; [apply sort_perm | symmetry; apply sort_perm].
Qed.
End SortFacts.

Lemma existsb_eqb_In x l : existsb (String.eqb x) l = true <-> In x l.
Proof.
  rewrite existsb_exists. split.
  - intros (y & Hy & E). apply String.eqb_eq in E. now subst.
  - intros H. exists x. split; [assumption | apply String.eqb_refl].
Qed.

Lemma Set_add_In x y seen : In x (Set_add seen y) <-> In x seen \/ x = y.
Proof.
  unfold Set_add. destruct (existsb (String.eqb y) seen) eqn:E.
  - apply existsb_eqb_In in E. split; [tauto|]. intros [H| ->]; assumption.
  - rewrite in_app_iff. simpl. split; intros [H|H]; auto.
    destruct H as [H|[]]; auto.
Qed.

Lemma Set_add_NoDup y seen : NoDup seen -> NoDup (Set_add seen y).
Proof.
  intros H. unfold Set_add.
  destruct (existsb (String.eqb y) seen) eqn:E; [assumption|].
  assert (~ In y seen) as Hn.
  { intros Hin. apply existsb_eqb_In in Hin. congruence. }
  clear E. induction H as [|a l Ha Hl IH]; simpl.
  - constructor; [intros []|constructor].
  - constructor.
    + rewrite in_app_iff. simpl. intros [H|[H|[]]]; [contradiction|].
      apply Hn. now left.
    + apply IH. intros H. apply Hn. now right.
Qed.

Lemma fold_Set_add_In x l seen :
  In x (fold_left Set_add l seen) <-> In x seen \/ In x l.
Proof.
  revert seen. induction l as [|y l IH]; intros seen; simpl.
  - tauto.
  - rewrite IH, Set_add_In. intuition (subst; auto).
Qed.

Lemma fold_Set_add_NoDup l seen :
  NoDup seen -> NoDup (fold_left Set_add l seen).
Proof.
  revert seen. induction l as [|y l IH]; intros seen H; simpl; [assumption|].
  apply IH, Set_add_NoDup, H.
Qed.

Lemma new_Set_In x l : In x (new_Set l) <-> In x l.
Proof. unfold new_Set. rewrite fold_Set_add_In. simpl. tauto. Qed.

Lemma new_Set_NoDup l : NoDup (new_Set l).
Proof. apply fold_Set_add_NoDup. constructor. Qed.

Lemma matches_iff fn fm (r : DataRecord string) :
  matches fn fm r = true <->
  (fn = "All" \/ name r = fn) /\ (fm = "All" \/ monthYear r = fm).
Proof.
  unfold matches. rewrite andb_true_iff, !orb_true_iff, !String.eqb_eq. tauto.
Qed.

Lemma filteredData_In records fn fm r :
  In r (filteredData records fn fm) <->
  In r records /\ (fn = "All" \/ name r = fn) /\ (fm = "All" \/ monthYear r = fm).
Proof. unfold filteredData. rewrite filter_In, matches_iff. tauto. Qed.

Lemma filter_subsequence {A} (f : A -> bool) l : subsequence (filter f l) l.
Proof.
  induction l as [|x l IH]; simpl; [constructor|].
  destruct (f x); now constructor.
Qed.

Lemma filter_all_wildcard (records : list (DataRecord string)) :
  filteredData records "All" "All" = records.
Proof.
  unfold filteredData. induction records as [|r l IH]; simpl; [reflexivity|].
  now rewrite IH.
Qed.

(** C6. Filtering: a record is in the filtered output iff it is in the
    collection and the name filter is ["All"] or its name, and the month
    filter is ["All"] or its [monthYear]; the output is a subsequence of
    the collection, hence no longer than it. *)
Theorem filteredData_correct (records : list (DataRecord string))
  (fn fm : string) :
  (forall r, In r (filteredData records fn fm) <->
             In r records /\
             (fn = "All" \/ name r = fn) /\ (fm = "All" \/ monthYear r = fm))
  /\ subsequence (filteredData records fn fm) records
  /\ (List.length (filteredData records fn fm) <= List.length records)%nat.
Proof.
  split; [|split].
  - intros r. apply filteredData_In.
  - apply filter_subsequence.
  - apply filter_length_le.
Qed.

(** * Statistics *)

Lemma fold_totals l acc :
  accPotentialRevenue (fold_left add_record l acc)
    = fold_left PrimFloat.add (map potentialRevenue l) (accPotentialRevenue acc)
  /\ accInvoiceAmount (fold_left add_record l acc)
    = fold_left PrimFloat.add (map invoiceAmount l) (accInvoiceAmount acc)
  /\ accDollarsCollected (fold_left add_record l acc)
    = fold_left PrimFloat.add (map dollarsCollected l) (accDollarsCollected acc)
  /\ accExpenseIncurred (fold_left add_record l acc)
    = fold_left PrimFloat.add (map expenseIncurred l) (accExpenseIncurred acc)
  /\ accNetRevenue (fold_left add_record l acc)
    = fold_left PrimFloat.add (map netRevenue l) (accNetRevenue acc).
Proof.
  revert acc. induction l as [|r l IH]; intros acc; simpl.
  - repeat split.
  - apply (IH (add_record acc r)).
Qed.

Lemma zero_not_positive x : PrimFloat.eqb x 0%float = true -> JS.gt0 x = false.
Proof.
  unfold JS.gt0. rewrite eqb_spec, ltb_spec.
  change (Prim2SF 0%float) with (S754_zero false).
  destruct (Prim2SF x) as [s|s| |s m e]; simpl; try reflexivity; try discriminate.
  - destruct s; discriminate.
  - destruct s; discriminate.
Qed.

(** C7. Aggregation: each total is the sum of its field over the
    collection; [collectionRate] is collected over invoiced times 100 when
    the invoiced total is positive and [0] otherwise, in particular when
    that total equals [0]; with both filters at ["All"] the collected total
    is the sum over all records. *)
Theorem stats_correct (l : list (DataRecord string)) :
  totalPotentialRevenue (stats l) = sum (map potentialRevenue l)
  /\ totalInvoiceAmount (stats l) = sum (map invoiceAmount l)
  /\ totalDollarsCollected (stats l) = sum (map dollarsCollected l)
  /\ totalExpenseIncurred (stats l) = sum (map expenseIncurred l)
  /\ totalNetRevenue (stats l) = sum (map netRevenue l)
  /\ collectionRate (stats l)
     = (if JS.gt0 (totalInvoiceAmount (stats l))
        then (totalDollarsCollected (stats l) / totalInvoiceAmount (stats l)
              * 100)%float
        else 0%float)
  /\ (PrimFloat.eqb (totalInvoiceAmount (stats l)) 0%float = true ->
      collectionRate (stats l) = 0%float)
  /\ totalDollarsCollected (stats (filteredData l "All" "All"))
     = sum (map dollarsCollected l).
Proof.
  destruct (fold_totals l zero_totals) as (H1 & H2 & H3 & H4 & H5).
  unfold stats, sum; simpl.
  repeat split; try assumption.
  - intros H. now rewrite (zero_not_positive _ H).
  - rewrite filter_all_wildcard. assumption.
Qed.

(** * Name options *)

Lemma uniqueNames_perm records :
  Permutation (uniqueNames records) ("All" :: new_Set (map name records)).
Proof. apply sort_perm. Qed.

(** C10. A record named ["All"] collides with the wildcard: the name
    options then hold ["All"] twice; the filter ["All"] lets every record
    through, and a filter that lets such a record through is ["All"], so
    the record never comes alone. *)
Theorem wildcard_collides_with_name (records : list (DataRecord string)) :
  (exists r, In r records /\ name r = "All") ->
  count_occ string_dec (uniqueNames records) "All" = 2%nat
  /\ (forall fm r, In r records -> (fm = "All" \/ monthYear r = fm) ->
                   In r (filteredData records "All" fm))
  /\ (forall fn fm r, In r records -> name r = "All" ->
        In r (filteredData records fn fm) ->
        fn = "All" /\
        forall r', In r' records -> (fm = "All" \/ monthYear r' = fm) ->
                   In r' (filteredData records fn fm)).
Proof.
  intros (r0 & Hin & Hname). split; [|split].
  - rewrite (proj1 (Permutation_count_occ string_dec _ _)
               (uniqueNames_perm records)).
    simpl. destruct (string_dec "All" "All") as [_|n]; [|congruence].
    f_equal. apply (proj1 (NoDup_count_occ' string_dec _) (new_Set_NoDup _)).
    apply new_Set_In. rewrite <- Hname. now apply in_map.
  - intros fm r Hr Hm. apply filteredData_In. auto.
  - intros fn fm r Hr Hn Hf.
    apply filteredData_In in Hf. destruct Hf as (_ & Hfn & _).
    assert (fn = "All") as -> by (destruct Hfn; congruence).
    split; [reflexivity|].
    intros r' Hr' Hm. apply filteredData_In. auto.
Qed.

Lemma wildcard_collides_witness :
  (exists r, In r [rec_named "Globex" "01/2024"; rec_named "All" "02/2024"]
             /\ name r = "All")
  /\ count_occ string_dec
       (uniqueNames [rec_named "Globex" "01/2024"; rec_named "All" "02/2024"])
       "All" = 2%nat.
Proof.
  assert (exists r, In r [rec_named "Globex" "01/2024"; rec_named "All" "02/2024"]
                    /\ name r = "All") as H.
  { exists (rec_named "All" "02/2024").
    split; [right; left; reflexivity | reflexivity]. }
  split; [exact H|].
  exact (proj1 (wildcard_collides_with_name _ H)).
Defined.

Lemma names_of_mock g :
  map name (mock_rows g)
  = flat_map (fun n => map (fun _ => n) mock_months) mock_names.
Proof. reflexivity. Qed.

(** C3. The name options of the application's own mock data: ["All"] is
    sorted among the names and comes second, after ["Acme Corp"]. *)
Theorem uniqueNames_of_mock_data (g : rng) :
  uniqueNames (mock_rows g)
  = ["Acme Corp"; "All"; "Globex"; "Initech"; "Soylent Corp"; "Umbrella Co"].
Proof. unfold uniqueNames. rewrite names_of_mock. reflexivity. Qed.

(** * Currency parser *)

Lemma or_zero_not_NaN p : JS.isNaN (or_zero p) = false.
Proof. unfold or_zero. destruct (JS.isNaN p) eqn:E; [reflexivity | exact E]. Qed.

Lemma parseCurrency_string s :
  parseCurrency (VString s) = Ok (or_zero (JS.parseFloat (strip_non_numeric s))).
Proof. destruct s; reflexivity. Qed.

Lemma parseCurrency_object v :
  (forall n, v <> VNumber n) -> is_nullish v = false ->
  parseCurrency v =
  match toString v with
  | Ok s => Ok (or_zero (JS.parseFloat (strip_non_numeric s)))
  | Throw e => Throw e
  end.
Proof.
  intros Hn Hv. destruct v; try discriminate; try reflexivity.
  - now elim (Hn n).
  - apply parseCurrency_string.
Qed.

(** C2, as the code has it. [parseCurrency] maps [undefined], [null], the
    empty text and the booleans to [0] and returns a number as it is,
    finite or not; a text never yields NaN: it yields [0] when what is
    left of it does not parse and the parsed number otherwise; an object
    or an array is parsed through its [toString]: when that returns a
    text, [parseCurrency] returns the number read from it, which is not
    NaN, and when it throws, [parseCurrency] throws the same exception. *)
Theorem parseCurrency_cases (val : value) :
  match val with
  | VUndefined | VNull => parseCurrency val = Ok 0%float
  | VNumber n => parseCurrency val = Ok n
  | VString s =>
      exists x, parseCurrency val = Ok x /\ JS.isNaN x = false
        /\ (s = "" -> x = 0%float)
        /\ (JS.isNaN (JS.parseFloat (strip_non_numeric s)) = true ->
            x = 0%float)
        /\ (JS.isNaN (JS.parseFloat (strip_non_numeric s)) = false ->
            x = JS.parseFloat (strip_non_numeric s))
  | VBool _ => parseCurrency val = Ok 0%float
  | VObject _ | VArray _ =>
      match toString val with
      | Ok s =>
          exists x, parseCurrency val = Ok x /\ JS.isNaN x = false
            /\ x = or_zero (JS.parseFloat (strip_non_numeric s))
      | Throw e => parseCurrency val = Throw e
      end
  end.
Proof.
  destruct val as [| |b|n|s|props|elems]; try reflexivity.
  - destruct b; reflexivity.
  - exists (or_zero (JS.parseFloat (strip_non_numeric s))).
    split; [apply parseCurrency_string|]. split; [apply or_zero_not_NaN|].
    unfold or_zero. split; [intros ->; reflexivity|].
    split; intros ->; reflexivity.
  - rewrite parseCurrency_object by (discriminate || reflexivity).
    destruct (toString (VObject props)); [|reflexivity].
    eexists. split; [reflexivity|]. split; [apply or_zero_not_NaN | reflexivity].
  - rewrite parseCurrency_object by (discriminate || reflexivity).
    destruct (toString (VArray elems)); [|reflexivity].
    eexists. split; [reflexivity|]. split; [apply or_zero_not_NaN | reflexivity].
Qed.

Lemma parseCurrency_counterexample :
  parseCurrency (VObject [("toString", VNumber 1%float)]) = Throw TypeError
  /\ parseCurrency (VNumber infinity) = Ok infinity
  /\ parseCurrency (VString ("1" ++ JS.zeros 309)) = Ok infinity
  /\ PrimFloat.is_finite infinity = false.
Proof. repeat split. Qed.

(** * Record normaliser *)

Lemma get_read item key :
  is_nullish item = false -> get item key = Ok (read item key).
Proof.
  unfold read. destruct item; simpl; try discriminate; try reflexivity.
  intros _. destruct (own_property key props); reflexivity.
Qed.

Lemma get_nullish item key :
  is_nullish item = true -> get item key = Throw TypeError.
Proof. destruct item; simpl; try discriminate; reflexivity. Qed.

Lemma normalize_nullish item g :
  is_nullish item = true -> normalize item g = (Throw TypeError, g).
Proof.
  intros H. unfold normalize, bind, amount, lift.
  now rewrite (get_nullish _ _ H).
Qed.

Lemma id_chain v1 v2 v3 g :
  or_else (lift (Ok v1))
    (or_else (lift (Ok v2))
       (or_else (lift (Ok v3)) (s <- random_id ;; ret (VString s)))) g
  = match first_truthy [v1; v2; v3] with
    | Some v => (Ok v, g)
    | None => (Ok (VString (JS.substr 2 9 (base36 (g O)))), skip 1 g)
    end.
Proof.
  unfold or_else, bind, lift, ret, first_truthy; simpl.
  destruct (truthy v1), (truthy v2), (truthy v3); reflexivity.
Qed.

Lemma default_chain v1 v2 d g :
  or_else (lift (Ok v1)) (or_else (lift (Ok v2)) (ret d)) g
  = (Ok (or_default [v1; v2] d), g).
Proof.
  unfold or_else, bind, lift, ret, or_default, first_truthy; simpl.
  destruct (truthy v1), (truthy v2); reflexivity.
Qed.

(** The normaliser, written out for an element that is neither [null]
    nor [undefined]. *)
Lemma normalize_eq item g :
  is_nullish item = false ->
  normalize item g =
  match parseCurrency (read item "Potential Revenue") with
  | Throw e => (Throw e, g)
  | Ok pot =>
  match parseCurrency (read item "Invoice Amount") with
  | Throw e => (Throw e, g)
  | Ok inv =>
  match parseCurrency (read item "Dollars Collected") with
  | Throw e => (Throw e, g)
  | Ok coll =>
  match parseCurrency (read item "Expense Incurred") with
  | Throw e => (Throw e, g)
  | Ok exp =>
  match net_of (read item "Net Revenue") coll exp with
  | Throw e => (Throw e, g)
  | Ok net =>
      let ids := [read item "Opportunity ID"; read item "id"; read item "key"] in
      (Ok {| id := match first_truthy ids with
                   | Some v => v
                   | None => VString (JS.substr 2 9 (base36 (g O)))
                   end;
             name := or_default [read item "Name"; read item "name"]
                       (VString "Unknown Entity");
             potentialRevenue := pot;
             invoiceAmount := inv;
             dollarsCollected := coll;
             expenseIncurred := exp;
             netRevenue := net;
             monthYear := or_default [read item "MM/YYYY"; read item "monthYear"]
                            (VString "01/2024") |},
       match first_truthy ids with Some _ => g | None => skip 1 g end)
  end end end end end.
Proof.
  intros Hn. unfold normalize, amount, prop.
  rewrite !(get_read _ _ Hn).
  unfold bind at 1. unfold lift at 1.
  destruct (parseCurrency (read item "Potential Revenue")) as [pot|]; [|reflexivity].
  unfold bind at 1. unfold lift at 1.
  destruct (parseCurrency (read item "Invoice Amount")) as [inv|]; [|reflexivity].
  unfold bind at 1. unfold lift at 1.
  destruct (parseCurrency (read item "Dollars Collected")) as [coll|]; [|reflexivity].
  unfold bind at 1. unfold lift at 1.
  destruct (parseCurrency (read item "Expense Incurred")) as [exp|]; [|reflexivity].
  unfold bind at 1. unfold lift at 1.
  assert (forall (net : JS.number) (g0 : rng),
    (the_id <- or_else (lift (Ok (read item "Opportunity ID")))
                 (or_else (lift (Ok (read item "id")))
                    (or_else (lift (Ok (read item "key")))
                       (s <- random_id;; ret (VString s))));;
     the_name <- or_else (lift (Ok (read item "Name")))
                   (or_else (lift (Ok (read item "name")))
                      (ret (VString "Unknown Entity")));;
     the_month <- or_else (lift (Ok (read item "MM/YYYY")))
                    (or_else (lift (Ok (read item "monthYear")))
                       (ret (VString "01/2024")));;
     ret {| id := the_id; name := the_name; potentialRevenue := pot;
            invoiceAmount := inv; dollarsCollected := coll;
            expenseIncurred := exp; netRevenue := net;
            monthYear := the_month |}) g0
    = (let ids := [read item "Opportunity ID"; read item "id"; read item "key"] in
       (Ok {| id := match first_truthy ids with
                   | Some v => v
                   | None => VString (JS.substr 2 9 (base36 (g0 O)))
                   end;
             name := or_default [read item "Name"; read item "name"]
                       (VString "Unknown Entity");
             potentialRevenue := pot;
             invoiceAmount := inv;
             dollarsCollected := coll;
             expenseIncurred := exp;
             netRevenue := net;
             monthYear := or_default [read item "MM/YYYY"; read item "monthYear"]
                            (VString "01/2024") |},
       match first_truthy ids with Some _ => g0 | None => skip 1 g0 end)))
    as Htail.
  { intros net g0. unfold bind at 1. rewrite id_chain. cbv zeta.
    destruct (first_truthy _); unfold bind at 1; rewrite default_chain;
      unfold bind at 1; rewrite default_chain; reflexivity. }
  unfold net_of.
  destruct (read item "Net Revenue") eqn:Eraw;
    unfold ret at 1; unfold lift at 1; cbv beta iota;
    try (destruct (parseCurrency _); [|reflexivity]);
    apply Htail.
Qed.

Lemma is_ok_net_of raw c e c' e' :
  is_ok (net_of raw c e) = is_ok (net_of raw c' e').
Proof. destruct raw; reflexivity. Qed.

Lemma normalize_ok item g :
  normalizable item = true ->
  exists r g', normalize item g = (Ok r, g') /\ (g' = g \/ g' = skip 1 g).
Proof.
  unfold normalizable. rewrite !andb_true_iff, negb_true_iff.
  intros [[[[[Hn H1] H2] H3] H4] H5].
  rewrite (normalize_eq _ _ Hn).
  destruct (parseCurrency (read item "Potential Revenue")); [|discriminate].
  destruct (parseCurrency (read item "Invoice Amount")); [|discriminate].
  destruct (parseCurrency (read item "Dollars Collected")) as [coll|]; [|discriminate].
  destruct (parseCurrency (read item "Expense Incurred")) as [exp|]; [|discriminate].
  rewrite (is_ok_net_of _ _ _ coll exp) in H5.
  destruct (net_of (read item "Net Revenue") coll exp); [|discriminate].
  cbv zeta. do 2 eexists. split; [reflexivity|].
  destruct (first_truthy _); auto.
Qed.

Lemma normalize_throws item g :
  normalizable item = false -> exists e, normalize item g = (Throw e, g).
Proof.
  unfold normalizable. destruct (is_nullish item) eqn:Hn.
  { intros _. exists TypeError. now apply normalize_nullish. }
  rewrite (normalize_eq _ _ Hn).
  destruct (parseCurrency (read item "Potential Revenue")); [|eauto].
  destruct (parseCurrency (read item "Invoice Amount")); [|eauto].
  destruct (parseCurrency (read item "Dollars Collected")) as [coll|]; [|eauto].
  destruct (parseCurrency (read item "Expense Incurred")) as [exp|]; [|eauto].
  rewrite (is_ok_net_of _ _ _ coll exp).
  destruct (net_of (read item "Net Revenue") coll exp);
    cbn [negb andb is_ok]; [discriminate | eauto].
Qed.

(** What a returned record holds. *)
Lemma normalize_inv item g r g' :
  normalize item g = (Ok r, g') ->
  is_nullish item = false
  /\ parseCurrency (read item "Potential Revenue") = Ok (potentialRevenue r)
  /\ parseCurrency (read item "Invoice Amount") = Ok (invoiceAmount r)
  /\ parseCurrency (read item "Dollars Collected") = Ok (dollarsCollected r)
  /\ parseCurrency (read item "Expense Incurred") = Ok (expenseIncurred r)
  /\ net_of (read item "Net Revenue") (dollarsCollected r) (expenseIncurred r)
     = Ok (netRevenue r)
  /\ id r = match first_truthy [read item "Opportunity ID"; read item "id";
                                read item "key"] with
            | Some v => v
            | None => VString (JS.substr 2 9 (base36 (g O)))
            end
  /\ g' = match first_truthy [read item "Opportunity ID"; read item "id";
                              read item "key"] with
          | Some _ => g
          | None => skip 1 g
          end
  /\ name r = or_default [read item "Name"; read item "name"]
                (VString "Unknown Entity")
  /\ monthYear r = or_default [read item "MM/YYYY"; read item "monthYear"]
                     (VString "01/2024").
Proof.
  destruct (is_nullish item) eqn:Hn.
  { rewrite (normalize_nullish _ _ Hn). discriminate. }
  rewrite (normalize_eq _ _ Hn).
  destruct (parseCurrency (read item "Potential Revenue")); [|discriminate].
  destruct (parseCurrency (read item "Invoice Amount")); [|discriminate].
  destruct (parseCurrency (read item "Dollars Collected")) as [coll|]; [|discriminate].
  destruct (parseCurrency (read item "Expense Incurred")) as [exp|]; [|discriminate].
  destruct (net_of (read item "Net Revenue") coll exp) eqn:Enet; [|discriminate].
  cbv zeta. intros H. inversion H; subst; clear H.
  cbn [id name potentialRevenue invoiceAmount dollarsCollected expenseIncurred
       netRevenue monthYear].
  repeat split. exact Enet.
Qed.

(** C1. With no net-revenue field the record's [netRevenue] is [0], not
    [dollarsCollected - expenseIncurred]: the field reads as [undefined],
    which is not [null], and is parsed. *)
Theorem netRevenue_of_absent_field (g : rng) :
  exists r g', normalize invoice_without_net g = (Ok r, g')
    /\ get invoice_without_net "Net Revenue" = Ok VUndefined
    /\ dollarsCollected r = 50%float
    /\ expenseIncurred r = 10%float
    /\ netRevenue r = 0%float
    /\ (dollarsCollected r - expenseIncurred r)%float = 40%float.
Proof. do 2 eexists. repeat split. Qed.

(** C9, as the code has it. The empty object is normalised to the name
    ["Unknown Entity"], the month ["01/2024"], every amount [0] and the id
    drawn from [Math.random], which is a non-empty text for every draw but
    [0] and the empty text for the draw [0]. *)
Theorem normalize_empty_object (g : rng) :
  exists r, normalize (VObject []) g = (Ok r, skip 1 g)
    /\ name r = VString "Unknown Entity"
    /\ monthYear r = VString "01/2024"
    /\ potentialRevenue r = 0%float /\ invoiceAmount r = 0%float
    /\ dollarsCollected r = 0%float /\ expenseIncurred r = 0%float
    /\ netRevenue r = 0%float
    /\ id r = VString (JS.substr 2 9 (base36 (g O)))
    /\ (forall c rest, base36 (g O) = String "0" (String "." (String c rest)) ->
        exists c' rest', id r = VString (String c' rest'))
    /\ (base36 (g O) = "0" -> id r = VString "").
Proof.
  eexists. split; [reflexivity|].
  cbn [name monthYear potentialRevenue invoiceAmount dollarsCollected
       expenseIncurred netRevenue id].
  repeat split.
  - intros c rest E. rewrite E. simpl. eauto.
  - intros E. rewrite E. reflexivity.
Qed.

Lemma normalize_empty_object_counterexample :
  exists r, normalize (VObject []) zero_rng = (Ok r, skip 1 zero_rng)
            /\ id r = VString "".
Proof. eexists. split; reflexivity. Qed.

(** C5, as the code has it. The id is the first truthy value among the
    keys ["Opportunity ID"], ["id"], ["key"], and a random text when none
    is truthy; the name is the first truthy value among ["Name"], ["name"],
    and ["Unknown Entity"] when none is; a value that is defined but
    falsy (the empty text, zero) is passed over. *)
Theorem alias_resolution (item : value) (g : rng) r g' :
  normalize item g = (Ok r, g') ->
  id r = match first_truthy [read item "Opportunity ID"; read item "id";
                             read item "key"] with
         | Some v => v
         | None => VString (JS.substr 2 9 (base36 (g O)))
         end
  /\ g' = match first_truthy [read item "Opportunity ID"; read item "id";
                              read item "key"] with
          | Some _ => g
          | None => skip 1 g
          end
  /\ name r = or_default [read item "Name"; read item "name"]
                (VString "Unknown Entity")
  /\ monthYear r = or_default [read item "MM/YYYY"; read item "monthYear"]
                     (VString "01/2024").
Proof.
  intros H. apply normalize_inv in H.
  destruct H as (_ & _ & _ & _ & _ & _ & H1 & H2 & H3 & H4). auto.
Qed.

Lemma alias_resolution_counterexample :
  exists r g', normalize aliased_item sample_rng = (Ok r, g')
    /\ read aliased_item "Opportunity ID" = VString ""
    /\ read aliased_item "Name" = VString ""
    /\ id r = VString "x7"
    /\ name r = VString "Bob".
Proof. do 2 eexists. repeat split. Qed.

Lemma alias_resolution_witness :
  exists r g', normalize aliased_item sample_rng = (Ok r, g')
    /\ id r = VString "x7" /\ name r = VString "Bob".
Proof.
  do 2 eexists. split; [reflexivity|].
  destruct (alias_resolution aliased_item sample_rng _ _ eq_refl)
    as (H1 & _ & H3 & _).
  split; [exact H1 | exact H3].
Defined.

(** * Data loader *)

Lemma mapM_normalize_ok items g :
  forallb normalizable items = true ->
  exists rows g', mapM normalize items g = (Ok rows, g')
                  /\ Forall2 normalized_from items rows.
Proof.
  revert g. induction items as [|item items IH]; intros g; simpl.
  - intros _. exists [], g. split; [reflexivity | constructor].
  - rewrite andb_true_iff. intros [H1 H2].
    destruct (normalize_ok item g H1) as (r & g1 & E1 & _).
    destruct (IH g1 H2) as (rows & g2 & E2 & F).
    exists (r :: rows), g2. unfold bind. rewrite E1, E2. split; [reflexivity|].
    constructor; [now exists g, g1 | assumption].
Qed.

Lemma mapM_normalize_throws items g :
  forallb normalizable items = false ->
  exists e g', mapM normalize items g = (Throw e, g').
Proof.
  revert g. induction items as [|item items IH]; intros g; simpl; [discriminate|].
  destruct (normalizable item) eqn:H1; simpl.
  - intros H2. destruct (normalize_ok item g H1) as (r & g1 & E1 & _).
    destruct (IH g1 H2) as (e & g2 & E2).
    exists e, g2. unfold bind. now rewrite E1, E2.
  - intros _. destruct (normalize_throws item g H1) as (e & E1).
    exists e, g. unfold bind. now rewrite E1.
Qed.

Lemma generateMockData_ok g :
  generateMockData g = (Ok (mock_rows g), skip 100 g).
Proof. reflexivity. Qed.

Lemma mock_rows_shape g :
  List.length (mock_rows g) = 25%nat
  /\ map name (mock_rows g)
     = flat_map (fun n => map (fun _ => n) mock_months) mock_names
  /\ map monthYear (mock_rows g)
     = flat_map (fun _ => mock_months) mock_names.
Proof. repeat split. Qed.

Lemma formattedData_payload net g :
  formattedData net g =
  match payload net with
  | Some (item :: items) => mapM normalize (item :: items) g
  | Some [] => (Throw (Error "Empty data set returned"), g)
  | None =>
      match net with
      | FetchRejected => (Throw TypeError, g)
      | FetchResponse false code _ =>
          (Throw (Error ("HTTP error! status: " ++
                         JS.Number_toString (JS.number_of_Z code))), g)
      | FetchResponse true _ _ => (Throw SyntaxError, g)
      end
  end.
Proof.
  destruct net as [|ok code body]; [reflexivity|].
  destruct ok; [|reflexivity].
  destruct body as [data|]; [|reflexivity].
  destruct data; try reflexivity.
  destruct elems; reflexivity.
Qed.

Lemma fetchData_throw net st g e g' :
  formattedData net g = (Throw e, g') ->
  fetchData net st g =
  (let s1 := setStatus LOADING st in
   let s2 := setRawData (map as_object (mock_rows g')) s1 in
   let s3 := setUsingMockData true s2 in
   [s1; s2; s3; setStatus SUCCESS s3],
   skip 100 g').
Proof.
  intros E. unfold fetchData. rewrite E, generateMockData_ok. reflexivity.
Qed.

Lemma fetchData_ok net st g rows g' :
  formattedData net g = (Ok rows, g') ->
  fetchData net st g =
  (let s1 := setStatus LOADING st in
   let s2 := setRawData rows s1 in
   let s3 := setUsingMockData false s2 in
   [s1; s2; s3; setStatus SUCCESS s3],
   g').
Proof. intros E. unfold fetchData. now rewrite E. Qed.

(** What the loader leaves, by the way the [try] block ends. *)
Lemma loaded_cases net st g :
  (exists e g', formattedData net g = (Throw e, g')
     /\ loaded net st g
        = setStatus SUCCESS (setUsingMockData true
            (setRawData (map as_object (mock_rows g')) (setStatus LOADING st))))
  \/ (exists rows g', formattedData net g = (Ok rows, g')
     /\ loaded net st g
        = setStatus SUCCESS (setUsingMockData false
            (setRawData rows (setStatus LOADING st)))).
Proof.
  unfold loaded. destruct (formattedData net g) as [[rows|e] g'] eqn:E.
  - right. exists rows, g'. split; [reflexivity|].
    now rewrite (fetchData_ok _ st _ _ _ E).
  - left. exists e, g'. split; [reflexivity|].
    now rewrite (fetchData_throw _ st _ _ _ E).
Qed.

Lemma statuses_of_trace net st g :
  Forall (fun s => status s = LOADING \/ status s = SUCCESS)
         (fst (fetchData net st g)).
Proof.
  destruct (formattedData net g) as [[rows|e] g'] eqn:E.
  - rewrite (fetchData_ok _ st _ _ _ E). cbn [fst].
    repeat (apply Forall_cons; [cbn; auto|]); apply Forall_nil.
  - rewrite (fetchData_throw _ st _ _ _ E). cbn [fst].
    repeat (apply Forall_cons; [cbn; auto|]); apply Forall_nil.
Qed.

Lemma fell_back_mock st g' :
  fell_back (setStatus SUCCESS (setUsingMockData true
               (setRawData (map as_object (mock_rows g')) st))).
Proof.
  unfold fell_back.
  cbn [usingMockData rawData setStatus setUsingMockData setRawData].
  split; [reflexivity|].
  split; [rewrite length_map; apply mock_rows_shape | now exists g'].
Qed.

(** C4, as the code has it. The loader always ends in [SUCCESS] and
    never shows [ERROR]. It falls back on the 25 mock records, with
    [usingMockData] set, when the request fails, the response is not
    successful, the body does not parse, the collection is empty, or the
    normaliser throws on an element; otherwise it holds the normalised
    elements, in order, with [usingMockData] cleared. *)
Theorem fetchData_outcome (net : fetch_result) (st : AppState) (g : rng) :
  let final := loaded net st g in
  status final = SUCCESS
  /\ Forall (fun s => status s = LOADING \/ status s = SUCCESS)
            (fst (fetchData net st g))
  /\ match payload net with
     | Some (item :: items) =>
         if forallb normalizable (item :: items)
         then usingMockData final = false
              /\ Forall2 normalized_from (item :: items) (rawData final)
         else fell_back final
     | _ => fell_back final
     end.
Proof.
  cbv zeta.
  split.
  { destruct (loaded_cases net st g) as [(e & g' & _ & ->)|(rows & g' & _ & ->)];
      reflexivity. }
  split; [apply statuses_of_trace|].
  pose proof (formattedData_payload net g) as Hp.
  assert (forall e g', formattedData net g = (Throw e, g') ->
                       fell_back (loaded net st g)) as Hthrow.
  { intros e g' E.
    destruct (loaded_cases net st g) as [(e1 & g1 & E1 & ->)|(rows & g1 & E1 & _)];
      [apply fell_back_mock | congruence]. }
  destruct (payload net) as [[|item items]|].
  - now apply (Hthrow _ _ Hp).
  - destruct (forallb normalizable (item :: items)) eqn:Hall.
    + destruct (mapM_normalize_ok _ g Hall) as (rows & g' & E & F).
      rewrite E in Hp.
      destruct (loaded_cases net st g) as [(e1 & g1 & E1 & _)|(rows1 & g1 & E1 & ->)];
        [congruence|].
      assert (rows1 = rows) as -> by congruence.
      split; [reflexivity | exact F].
    + destruct (mapM_normalize_throws _ g Hall) as (e & g' & E).
      rewrite E in Hp. now apply (Hthrow _ _ Hp).
  - destruct net as [|[] code [data|]]; try discriminate;
      now apply (Hthrow _ _ Hp).
Qed.

Lemma fetchData_counterexample :
  payload (FetchResponse true 200 (Some (VArray [VNull]))) = Some [VNull]
  /\ usingMockData
       (loaded (FetchResponse true 200 (Some (VArray [VNull])))
          initial_state sample_rng) = true
  /\ List.length
       (rawData (loaded (FetchResponse true 200 (Some (VArray [VNull])))
                   initial_state sample_rng)) = 25%nat.
Proof. repeat split. Qed.

(** * Binary64 arithmetic on integers

    The comparator of the month sort computes [year * 12 + month] and a
    difference in binary64.  On integers below [2 ^ 53] these operations
    are exact; this is shown on the specification of the primitive
    floats. *)

Lemma digits2_size p : digits2_pos p = Pos.size p.
Proof. induction p; simpl; congruence. Qed.

Lemma digits2_log2 p : Zpos (digits2_pos p) = Z.succ (Z.log2 (Zpos p)).
Proof.
  rewrite digits2_size. destruct p; simpl Pos.size; rewrite ?Pos2Z.inj_succ; reflexivity.
Qed.

Lemma digits2_shift p k q :
  0 <= k -> Zpos q = Zpos p * 2 ^ k ->
  Zpos (digits2_pos q) = Zpos (digits2_pos p) + k.
Proof.
  intros Hk E. rewrite !digits2_log2, E, Z.log2_mul_pow2 by lia. lia.
Qed.

Lemma digits2_bound p n : 0 <= n -> Zpos p < 2 ^ n -> Zpos (digits2_pos p) <= n.
Proof.
  intros Hn H. rewrite digits2_log2.
  destruct (Z.eq_dec n 0) as [->|Hn0]; [simpl in H; lia|].
  apply Z.log2_lt_pow2 in H; lia.
Qed.

Lemma pow2_xO n : 2 ^ Zpos n~0 = 2 ^ Zpos n * 2 ^ Zpos n.
Proof.
  replace (Zpos n~0) with (Zpos n + Zpos n) by lia.
  apply Z.pow_add_r; lia.
Qed.

Lemma pow2_xI n : 2 ^ Zpos n~1 = 2 * (2 ^ Zpos n * 2 ^ Zpos n).
Proof.
  replace (Zpos n~1) with (Z.succ (Zpos n + Zpos n)) by lia.
  rewrite Z.pow_succ_r, Z.pow_add_r by lia. reflexivity.
Qed.

(** Shifting right a number whose low bits are zero loses nothing. *)
Lemma shr_1_exact z :
  0 <= z -> shr_1 (Build_shr_record (2 * z) false false) = Build_shr_record z false false.
Proof. intros Hz. destruct z; try lia; reflexivity. Qed.

Lemma shr_exact n : forall z, 0 <= z ->
  iter_pos shr_1 n (Build_shr_record (z * 2 ^ Zpos n) false false)
  = Build_shr_record z false false.
Proof.
  induction n as [n IH|n IH|]; intros z Hz; cbn [iter_pos].
  - replace (z * 2 ^ Zpos n~1) with (2 * ((z * 2 ^ Zpos n) * 2 ^ Zpos n)).
    + rewrite shr_1_exact by (repeat apply Z.mul_nonneg_nonneg; lia).
      rewrite IH by (apply Z.mul_nonneg_nonneg; lia). now apply IH.
    + rewrite pow2_xI. ring.
  - replace (z * 2 ^ Zpos n~0) with ((z * 2 ^ Zpos n) * 2 ^ Zpos n).
    + rewrite IH by (apply Z.mul_nonneg_nonneg; lia). now apply IH.
    + rewrite pow2_xO. ring.
  - rewrite Z.pow_1_r, Z.mul_comm. now apply shr_1_exact.
Qed.

Lemma iter_xO m d : Zpos (Pos.iter xO m d) = Zpos m * 2 ^ Zpos d.
Proof.
  revert m. induction d as [d IH|d IH|]; intros m; cbn [Pos.iter].
  - change (Zpos (Pos.iter xO (Pos.iter xO m d) d)~0)
      with (2 * Zpos (Pos.iter xO (Pos.iter xO m d) d)).
    rewrite !IH, pow2_xI. ring.
  - rewrite !IH, pow2_xO. ring.
  - rewrite Z.pow_1_r. change (Zpos m~0) with (2 * Zpos m). ring.
Qed.

Lemma fexp_small d : 1 <= d <= 53 -> fexp prec emax d = d - 53.
Proof. intros H. unfold fexp, SpecFloat.emin, prec, emax. lia. Qed.



Lemma canon_mantissa_value z :
  Zpos z < 2 ^ 53 ->
  Zpos (canon_mantissa z) = Zpos z * 2 ^ (53 - Zpos (digits2_pos z)).
Proof.
  intros H. pose proof (digits2_bound z 53 ltac:(lia) H) as Hd.
  unfold canon_mantissa. destruct (53 - Zpos (digits2_pos z)) eqn:E; try lia.
  apply iter_xO.
Qed.

Lemma canon_digits z :
  Zpos z < 2 ^ 53 -> Zpos (digits2_pos (canon_mantissa z)) = 53.
Proof.
  intros H. pose proof (digits2_bound z 53 ltac:(lia) H) as Hd.
  rewrite (digits2_shift z (53 - Zpos (digits2_pos z))); [lia | lia |].
  now apply canon_mantissa_value.
Qed.

(** Rounding [z * 2 ^ k] at exponent [- k] when no bit has to be gained. *)
Lemma round_aux_exact sx m z k :
  Zpos z < 2 ^ 53 -> 53 - Zpos (digits2_pos z) <= k ->
  Zpos m = Zpos z * 2 ^ k ->
  binary_round_aux prec emax sx (Zpos m) (- k) loc_Exact
  = S754_finite sx (canon_mantissa z) (canon_exponent z).
Proof.
  intros Hz Hk Hm.
  pose proof (digits2_bound z 53 ltac:(lia) Hz) as Hd.
  assert (0 < Zpos (digits2_pos z)) as Hd0 by lia.
  assert (0 <= k) as Hk0 by lia.
  unfold binary_round_aux, shr_fexp.
  cbn [Zdigits2 shr_record_of_loc].
  rewrite (digits2_shift z k m Hk0 Hm).
  replace (Zpos (digits2_pos z) + k + - k) with (Zpos (digits2_pos z)) by lia.
  rewrite fexp_small by lia.
  set (n := Zpos (digits2_pos z) - 53 - - k).
  assert (shr (Build_shr_record (Zpos m) false false) (- k) n
          = (Build_shr_record (Zpos (canon_mantissa z)) false false, canon_exponent z)) as ->.
  { unfold shr. destruct n as [|p|p] eqn:En; try lia.
    - f_equal. + f_equal. rewrite canon_mantissa_value, Hm by assumption. f_equal. f_equal. lia.
      + unfold canon_exponent. lia.
    - f_equal; [|unfold canon_exponent; lia].
      rewrite <- (shr_exact p (Zpos (canon_mantissa z))) by lia.
      f_equal. f_equal. rewrite canon_mantissa_value, Hm by assumption.
      rewrite <- Z.mul_assoc, <- Z.pow_add_r by lia. f_equal. f_equal. lia. }
  cbn [shr_m loc_of_shr_record round_nearest_even Zdigits2 shr_record_of_loc].
  rewrite canon_digits by assumption.
  unfold canon_exponent.
  replace (53 + (Zpos (digits2_pos z) - 53)) with (Zpos (digits2_pos z)) by lia.
  rewrite fexp_small by lia.
  replace (Zpos (digits2_pos z) - 53 - (Zpos (digits2_pos z) - 53)) with 0 by lia.
  cbn [shr shr_m].
  replace (Zpos (digits2_pos z) - 53 <=? emax - prec) with true; [reflexivity|].
  symmetry. apply Z.leb_le. unfold emax, prec. lia.
Qed.

Lemma round_exact sx m z k :
  Zpos z < 2 ^ 53 -> 0 <= k -> Zpos m = Zpos z * 2 ^ k ->
  binary_round prec emax sx m (- k)
  = S754_finite sx (canon_mantissa z) (canon_exponent z).
Proof.
  intros Hz Hk Hm.
  pose proof (digits2_bound z 53 ltac:(lia) Hz) as Hd.
  assert (0 < Zpos (digits2_pos z)) as Hd0 by lia.
  unfold binary_round.
  rewrite (digits2_shift z k m Hk Hm).
  replace (Zpos (digits2_pos z) + k + - k) with (Zpos (digits2_pos z)) by lia.
  rewrite fexp_small by lia.
  unfold shl_align.
  destruct (Zpos (digits2_pos z) - 53 - - k) as [|d|d] eqn:E.
  - apply round_aux_exact; [assumption | lia | assumption].
  - apply round_aux_exact; [assumption | lia | assumption].
  - replace (Zpos (digits2_pos z) - 53) with (- (53 - Zpos (digits2_pos z))) by lia.
    apply round_aux_exact; [assumption | lia |].
    rewrite iter_xO, Hm, <- Z.mul_assoc, <- Z.pow_add_r by lia.
    f_equal. f_equal. lia.
Qed.


Lemma SF_of_Z_pos p :
  Zpos p < 2 ^ 53 ->
  SF_of_Z (Zpos p) = S754_finite false (canon_mantissa p) (canon_exponent p).
Proof.
  intros H. unfold SF_of_Z, binary_normalize.
  apply (round_exact false p p 0); [assumption | lia | lia].
Qed.

Lemma SF_of_Z_valid z : 0 <= z < 2 ^ 53 -> valid_binary (SF_of_Z z) = true.
Proof.
  intros [H0 H]. destruct z as [|p|p]; try lia; [reflexivity|].
  rewrite SF_of_Z_pos by assumption.
  pose proof (digits2_bound p 53 ltac:(lia) H) as Hd.
  unfold SpecFloat.valid_binary, bounded, canonical_mantissa.
  rewrite canon_digits by assumption. unfold canon_exponent.
  replace (53 + (Zpos (digits2_pos p) - 53)) with (Zpos (digits2_pos p)) by lia.
  rewrite fexp_small by lia. rewrite Z.eqb_refl. apply Z.leb_le.
  unfold emax, prec. lia.
Qed.

Lemma align_value m e ez :
  ez <= e -> Zpos (fst (shl_align m e ez)) = Zpos m * 2 ^ (e - ez).
Proof.
  intros H. unfold shl_align. destruct (ez - e) as [|d|d] eqn:E; try lia; cbn [fst].
  - replace (e - ez) with 0 by lia. lia.
  - rewrite iter_xO. f_equal. f_equal. lia.
Qed.

Lemma canon_aligned p ez :
  Zpos p < 2 ^ 53 -> ez <= canon_exponent p ->
  Zpos (fst (shl_align (canon_mantissa p) (canon_exponent p) ez)) = Zpos p * 2 ^ (- ez).
Proof.
  intros H Hez. pose proof (digits2_bound p 53 ltac:(lia) H) as Hd.
  rewrite align_value by assumption.
  rewrite canon_mantissa_value by assumption.
  unfold canon_exponent in *.
  rewrite <- Z.mul_assoc, <- Z.pow_add_r by lia. f_equal. f_equal. lia.
Qed.

Lemma SF_add a b :
  0 <= a -> 0 <= b -> a + b < 2 ^ 53 ->
  SFadd prec emax (SF_of_Z a) (SF_of_Z b) = SF_of_Z (a + b).
Proof.
  intros Ha Hb H.
  destruct a as [|p|p]; try lia; destruct b as [|q|q]; try lia.
  - reflexivity.
  - rewrite Z.add_0_l. rewrite SF_of_Z_pos by lia. reflexivity.
  - rewrite Z.add_0_r. rewrite SF_of_Z_pos by lia. reflexivity.
  - rewrite (SF_of_Z_pos p), (SF_of_Z_pos q) by lia.
    cbn [SFadd cond_Zopp].
    set (ez := Z.min (canon_exponent p) (canon_exponent q)).
    assert (ez <= canon_exponent p /\ ez <= canon_exponent q) as [H1 H2] by (unfold ez; lia).
    assert (ez <= 0).
    { pose proof (digits2_bound p 53 ltac:(lia) ltac:(lia)). unfold canon_exponent in *. lia. }
    rewrite !canon_aligned by (assumption || lia).
    rewrite <- Z.mul_add_distr_r.
    change (Zpos p + Zpos q) with (Zpos (p + q)).
    assert (0 < 2 ^ (- ez)) by (apply Z.pow_pos_nonneg; lia).
    destruct (Zpos (p + q) * 2 ^ (- ez)) as [|m|m] eqn:E; try lia.
    unfold SF_of_Z. cbn [binary_normalize].
    replace ez with (- (- ez)) by lia.
    rewrite (round_exact false m (p + q) (- ez)) by (assumption || lia).
    symmetry. apply (round_exact false (p + q) (p + q) 0); lia.
Qed.

Lemma SF_mul a b :
  0 <= a < 2 ^ 53 -> 0 <= b < 2 ^ 53 -> a * b < 2 ^ 53 ->
  SFmul prec emax (SF_of_Z a) (SF_of_Z b) = SF_of_Z (a * b).
Proof.
  intros [Ha Ha'] [Hb Hb'] H.
  destruct a as [|p|p]; try lia; destruct b as [|q|q]; try lia.
  - reflexivity.
  - rewrite Z.mul_0_l. rewrite SF_of_Z_pos by assumption. reflexivity.
  - rewrite Z.mul_0_r. rewrite SF_of_Z_pos by assumption. reflexivity.
  - assert (Zpos p < 2 ^ 53 /\ Zpos q < 2 ^ 53) as [Hp Hq] by (split; assumption).
    rewrite (SF_of_Z_pos p), (SF_of_Z_pos q) by assumption.
    cbn [SFmul xorb].
    pose proof (digits2_bound p 53 ltac:(lia) Hp) as Hdp.
    pose proof (digits2_bound q 53 ltac:(lia) Hq) as Hdq.
    change (Zpos p * Zpos q) with (Zpos (p * q)) in *.
    pose proof (digits2_log2 p) as Lp. pose proof (digits2_log2 q) as Lq.
    pose proof (digits2_log2 (p * q)) as Lpq.
    pose proof (Z.log2_mul_below (Zpos p) (Zpos q) ltac:(lia) ltac:(lia)) as Hlog.
    change (Zpos p * Zpos q) with (Zpos (p * q)) in Hlog.
    unfold canon_exponent.
    replace (Zpos (digits2_pos p) - 53 + (Zpos (digits2_pos q) - 53))
      with (- (106 - Zpos (digits2_pos p) - Zpos (digits2_pos q))) by lia.
    rewrite (round_aux_exact false _ (p * q)); [| assumption | lia |].
    + symmetry. apply (round_exact false (p * q) (p * q) 0); lia.
    + rewrite Pos2Z.inj_mul, !canon_mantissa_value by assumption.
      replace (106 - Zpos (digits2_pos p) - Zpos (digits2_pos q))
        with ((53 - Zpos (digits2_pos p)) + (53 - Zpos (digits2_pos q))) by lia.
      rewrite Z.pow_add_r by lia. rewrite Pos2Z.inj_mul. ring.
Qed.

Lemma SF_sub_sign a b :
  0 <= a < 2 ^ 53 -> 0 <= b < 2 ^ 53 ->
  SFltb (S754_zero false) (SFsub prec emax (SF_of_Z a) (SF_of_Z b)) = (b <? a).
Proof.
  intros [Ha Ha'] [Hb Hb'].
  destruct a as [|p|p]; try lia; destruct b as [|q|q]; try lia.
  - reflexivity.
  - rewrite SF_of_Z_pos by lia. reflexivity.
  - rewrite SF_of_Z_pos by lia. reflexivity.
  - rewrite (SF_of_Z_pos p), (SF_of_Z_pos q) by lia.
    cbn [SFsub cond_Zopp].
    set (ez := Z.min (canon_exponent p) (canon_exponent q)).
    assert (ez <= canon_exponent p /\ ez <= canon_exponent q) as [H1 H2] by (unfold ez; lia).
    assert (ez <= 0).
    { pose proof (digits2_bound p 53 ltac:(lia) ltac:(lia)). unfold canon_exponent in *. lia. }
    rewrite !canon_aligned by (assumption || lia).
    rewrite <- Z.mul_sub_distr_r.
    assert (0 < 2 ^ (- ez)) as Hpow by (apply Z.pow_pos_nonneg; lia).
    destruct (Z.compare_spec (Zpos q) (Zpos p)) as [E|L|G].
    + rewrite E, Z.sub_diag, Z.mul_0_l. cbn. symmetry. apply Z.ltb_irrefl.
    + replace (Zpos q <? Zpos p) with true by (symmetry; apply Z.ltb_lt; assumption).
      destruct (Zpos p - Zpos q) as [|d|d] eqn:Ed; try lia.
      destruct (Zpos d * 2 ^ (- ez)) as [|m|m] eqn:E; try lia.
      cbn [binary_normalize]. replace ez with (- (- ez)) by lia.
      rewrite (round_exact false m d (- ez)) by (assumption || lia). reflexivity.
    + replace (Zpos q <? Zpos p) with false by (symmetry; apply Z.ltb_ge; lia).
      destruct (Zpos p - Zpos q) as [|d|d] eqn:Ed; try lia.
      assert (Zneg d * 2 ^ (- ez) = - (Zpos d * 2 ^ (- ez))) as -> by lia.
      destruct (Zpos d * 2 ^ (- ez)) as [|m|m] eqn:E; try lia.
      cbn [Z.opp binary_normalize]. replace ez with (- (- ez)) by lia.
      rewrite (round_exact true m d (- ez)) by (assumption || lia). reflexivity.
Qed.

Lemma number_of_Z_spec z :
  0 <= z < 2 ^ 53 -> Prim2SF (JS.number_of_Z z) = SF_of_Z z.
Proof. intros H. apply Prim2SF_SF2Prim, SF_of_Z_valid, H. Qed.

Lemma number_of_decimal_integer z :
  0 <= z -> JS.number_of_decimal false z 0 = JS.number_of_Z z.
Proof.
  intros H. destruct z as [|p|p]; try lia; [reflexivity|].
  unfold JS.number_of_decimal, JS.number_of_Z. cbn [Z.leb Z.compare cond_Zopp].
  now rewrite Z.pow_0_r, Z.mul_1_r.
Qed.

Lemma float_key y m :
  0 <= y < 2 ^ 40 -> 0 <= m < 2 ^ 40 ->
  (JS.number_of_Z y * 12 + JS.number_of_Z m)%float = JS.number_of_Z (y * 12 + m).
Proof.
  intros Hy Hm. apply Prim2SF_inj.
  rewrite add_spec, mul_spec, !number_of_Z_spec by lia.
  change (Prim2SF 12%float) with (SF_of_Z 12).
  unfold SF64add, SF64mul.
  rewrite SF_mul by lia. apply SF_add; lia.
Qed.

Lemma gt0_difference a b :
  0 <= a < 2 ^ 53 -> 0 <= b < 2 ^ 53 ->
  JS.gt0 (JS.number_of_Z a - JS.number_of_Z b)%float = (b <? a).
Proof.
  intros Ha Hb. unfold JS.gt0.
  rewrite ltb_spec, sub_spec, !number_of_Z_spec by assumption.
  now apply SF_sub_sign.
Qed.

(** Digits and the texts made of them *)
Lemma digit_char c :
  JS.is_digit c = true ->
  JS.is_space c = false /\ Ascii.eqb c "-" = false /\ Ascii.eqb c "+" = false
  /\ Ascii.eqb "I" c = false /\ Ascii.eqb c "/" = false /\ Ascii.eqb c "A" = false
  /\ 0 <= JS.digit_value c <= 9.
Proof.
  destruct c as [[] [] [] [] [] [] [] []]; intros H; try discriminate H;
    repeat split; (reflexivity || (cbv; discriminate)).
Qed.

Lemma chars_text l : JS.chars (JS.text l) = l.
Proof. induction l; simpl; congruence. Qed.

Lemma text_chars s : JS.text (JS.chars s) = s.
Proof. induction s; simpl; congruence. Qed.

Lemma drop_spaces_digits l : forallb JS.is_digit l = true -> JS.drop_spaces l = l.
Proof.
  destruct l as [|c l]; [reflexivity|]. simpl. rewrite andb_true_iff. intros [H _].
  now rewrite (proj1 (digit_char c H)).
Qed.

Lemma trim_digits l : forallb JS.is_digit l = true -> JS.trim l = l.
Proof.
  intros H. unfold JS.trim. rewrite (drop_spaces_digits l H).
  rewrite drop_spaces_digits; [apply rev_involutive|].
  rewrite forallb_forall in *. intros x Hx. apply H. now apply in_rev.
Qed.

Lemma take_all_digits l : forallb JS.is_digit l = true -> JS.take_digits l = (l, []).
Proof.
  induction l as [|c l IH]; [reflexivity|]. simpl. rewrite andb_true_iff.
  intros [Hc Hl]. now rewrite Hc, (IH Hl).
Qed.

Lemma digits_value_nonneg l acc :
  0 <= acc -> forallb JS.is_digit l = true ->
  0 <= fold_left (fun a c => 10 * a + JS.digit_value c) l acc.
Proof.
  revert acc. induction l as [|c l IH]; intros acc Ha; cbn [fold_left forallb]; [auto|].
  rewrite andb_true_iff. intros [Hc Hl]. apply IH; [|assumption].
  destruct (digit_char c Hc) as (_ & _ & _ & _ & _ & _ & Hv). lia.
Qed.

Lemma Number_of_digits c l :
  forallb JS.is_digit (c :: l) = true ->
  JS.Number_of_string (JS.text (c :: l)) = JS.number_of_Z (JS.digits_value (c :: l)).
Proof.
  intros H. unfold JS.Number_of_string.
  rewrite chars_text, (trim_digits _ H).
  assert (JS.is_digit c = true) as Hc by (simpl in H; now apply andb_true_iff in H).
  destruct (digit_char c Hc) as (_ & Hm & Hp & Hi & _).
  unfold JS.parse_decimal. rewrite Hm, Hp.
  unfold JS.parse_unsigned.
  cbn [JS.starts_with JS.chars]. rewrite Hi. cbn [andb].
  rewrite (take_all_digits _ H). cbn [JS.parse_exponent JS.literal_value].
  apply number_of_decimal_integer, digits_value_nonneg; [lia | assumption].
Qed.



Lemma digits_value_bound l acc n :
  0 <= acc < n -> forallb JS.is_digit l = true ->
  0 <= fold_left (fun a c => 10 * a + JS.digit_value c) l acc
    < n * 10 ^ Z.of_nat (List.length l).
Proof.
  revert acc n. induction l as [|c l IH]; intros acc n Ha; cbn [fold_left forallb List.length].
  - intros _. change (10 ^ Z.of_nat 0) with 1. lia.
  - rewrite andb_true_iff. intros [Hc Hl].
    destruct (digit_char c Hc) as (_ & _ & _ & _ & _ & _ & Hv).
    rewrite Nat2Z.inj_succ, Z.pow_succ_r by lia.
    replace (n * (10 * 10 ^ Z.of_nat (List.length l)))
      with ((10 * n) * 10 ^ Z.of_nat (List.length l)) by ring.
    apply IH; [lia | assumption].
Qed.

Lemma month_year_inv s :
  is_month_year s = true ->
  exists m1 m2 y1 y2 y3 y4,
    s = JS.text [m1; m2; "/"%char; y1; y2; y3; y4]
    /\ forallb JS.is_digit [m1; m2] = true
    /\ forallb JS.is_digit [y1; y2; y3; y4] = true.
Proof.
  unfold is_month_year. intros H. rewrite <- (text_chars s).
  destruct (JS.chars s) as [|m1 [|m2 [|sl [|y1 [|y2 [|y3 [|y4 [|]]]]]]]]; try discriminate.
  apply andb_true_iff in H. destruct H as [H Hy].
  apply andb_true_iff in H. destruct H as [Hm Hs].
  apply Ascii.eqb_eq in Hs. subst sl.
  exists m1, m2, y1, y2, y3, y4. auto.
Qed.

Lemma month_key_exact s :
  is_month_year s = true ->
  month_key s = JS.number_of_Z (chronological s)
  /\ 0 <= chronological s < 2 ^ 53
  /\ String.eqb s "All" = false.
Proof.
  intros H. destruct (month_year_inv s H) as (m1 & m2 & y1 & y2 & y3 & y4 & -> & Hm & Hy).
  assert (JS.is_digit m1 = true /\ JS.is_digit m2 = true) as [H1 H2].
  { cbn [forallb] in Hm. rewrite !andb_true_iff in Hm. tauto. }
  pose proof (digits_value_bound [m1; m2] 0 1 ltac:(lia) Hm) as Bm.
  pose proof (digits_value_bound [y1; y2; y3; y4] 0 1 ltac:(lia) Hy) as By.
  fold (JS.digits_value [m1; m2]) in Bm. fold (JS.digits_value [y1; y2; y3; y4]) in By.
  cbn [List.length] in Bm, By.
  change (1 * 10 ^ Z.of_nat 2) with 100 in Bm.
  change (1 * 10 ^ Z.of_nat 4) with 10000 in By.
  unfold chronological. rewrite chars_text.
  split; [|split; [lia|]].
  - unfold month_key, JS.split. rewrite chars_text.
    destruct (digit_char m1 H1) as (_ & _ & _ & _ & S1 & _).
    destruct (digit_char m2 H2) as (_ & _ & _ & _ & S2 & _).
    assert (JS.split_chars "/" [] [m1; m2; "/"%char; y1; y2; y3; y4]
            = [JS.text [m1; m2]; JS.text [y1; y2; y3; y4]]) as ->.
    { cbn [forallb] in Hy. rewrite !andb_true_iff in Hy.
      destruct Hy as (Y1 & Y2 & Y3 & Y4 & _).
      cbn [JS.split_chars]. rewrite S1, S2. cbn [Ascii.eqb Bool.eqb].
      rewrite (proj1 (proj2 (proj2 (proj2 (proj2 (digit_char y1 Y1)))))).
      rewrite (proj1 (proj2 (proj2 (proj2 (proj2 (digit_char y2 Y2)))))).
      rewrite (proj1 (proj2 (proj2 (proj2 (proj2 (digit_char y3 Y3)))))).
      rewrite (proj1 (proj2 (proj2 (proj2 (proj2 (digit_char y4 Y4)))))).
      reflexivity. }
    cbn [map nth]. rewrite !Number_of_digits by assumption.
    apply float_key; lia.
  - destruct (digit_char m1 H1) as (_ & _ & _ & _ & _ & A1 & _).
    cbn [JS.text String.eqb]. now rewrite A1.
Qed.

Lemma month_compare_sign a b :
  is_month_year a = true -> is_month_year b = true ->
  JS.gt0 (month_compare a b) = (chronological b <? chronological a).
Proof.
  intros Ha Hb.
  destruct (month_key_exact a Ha) as (Ka & Ba & Ea).
  destruct (month_key_exact b Hb) as (Kb & Bb & Eb).
  unfold month_compare. rewrite Ea, Eb, Ka, Kb.
  now apply gt0_difference.
Qed.

(** Sorting with a comparator that agrees with an integer key *)
Section SortedByKey.
Context {A : Type} (cmp : A -> A -> JS.number) (key : A -> Z) (dom : A -> Prop).
Hypothesis cmp_key :
  forall a b, dom a -> dom b -> JS.gt0 (cmp a b) = (key b <? key a).

Let ordered (a b : A) : Prop := key a <= key b.

Lemma insert_sorted x l :
  dom x -> Forall dom l ->
  StronglySorted ordered l -> StronglySorted ordered (insert cmp x l).
Proof.
  intros Hx Hl Hs. induction Hs as [|y l Hs IH Hy]; cbn [insert].
  - constructor; constructor.
  - inversion Hl as [|? ? Dy Dl]; subst.
    rewrite (cmp_key x y Hx Dy).
    destruct (key y <? key x) eqn:E.
    + apply Z.ltb_lt in E. constructor; [now apply IH|].
      rewrite Forall_forall in *. intros z Hz.
      apply (Permutation_in _ (insert_perm cmp x l)) in Hz.
      destruct Hz as [<-|Hz]; [unfold ordered; lia | now apply Hy].
    + apply Z.ltb_ge in E. constructor; [now constructor|].
      constructor; [exact E|].
      rewrite Forall_forall in *. intros z Hz.
      specialize (Hy z Hz). unfold ordered in *. lia.
Qed.

Lemma sort_sorted l :
  Forall dom l -> StronglySorted ordered (sort cmp l).
Proof.
  induction l as [|x l IH]; intros H; cbn [sort]; [constructor|].
  inversion H; subst. apply insert_sorted; auto.
  rewrite Forall_forall in *. intros z Hz. apply sort_In in Hz. auto.
Qed.
End SortedByKey.

(** * Month options *)

Lemma insert_All l : insert month_compare "All" l = "All" :: l.
Proof. destruct l; reflexivity. Qed.

Lemma uniqueMonths_eq rawData :
  uniqueMonths rawData
  = "All" :: sort month_compare (new_Set (map monthYear rawData)).
Proof. unfold uniqueMonths. cbn [sort]. apply insert_All. Qed.

(** C8. Month options: ["All"] comes first and is followed by the
    distinct [monthYear] values, each once; when these have the form
    [MM/YYYY] they are in chronological order, that of [year * 12 + month];
    sorting ["03/2024"], ["01/2024"], ["All"], ["02/2024"] gives ["All"],
    ["01/2024"], ["02/2024"], ["03/2024"]. *)
Theorem uniqueMonths_order (rawData : list (DataRecord string)) :
  exists months,
    uniqueMonths rawData = "All" :: months
    /\ NoDup months
    /\ (forall m, In m months <-> In m (map monthYear rawData))
    /\ (Forall (fun r => is_month_year (monthYear r) = true) rawData ->
        StronglySorted (fun a b => chronological a <= chronological b) months)
    /\ sort month_compare ["03/2024"; "01/2024"; "All"; "02/2024"]
       = ["All"; "01/2024"; "02/2024"; "03/2024"].
Proof.
  exists (sort month_compare (new_Set (map monthYear rawData))).
  split; [apply uniqueMonths_eq|].
  split.
  { apply (Permutation_NoDup (l := new_Set (map monthYear rawData)));
      [symmetry; apply sort_perm | apply new_Set_NoDup]. }
  split.
  { intros m. rewrite sort_In. apply new_Set_In. }
  split; [|reflexivity].
  intros Hwf.
  apply (sort_sorted month_compare chronological (fun s => is_month_year s = true)).
  - intros a b. apply month_compare_sign.
  - rewrite Forall_forall in *. intros m Hm.
    apply new_Set_In, in_map_iff in Hm. destruct Hm as (r & <- & Hr). now apply Hwf.
Qed.

(** * Further properties *)

Section StableByKey.
Context {A : Type} (cmp : A -> A -> JS.number) (key : A -> Z) (dom : A -> Prop).
Hypothesis cmp_key :
  forall a b, dom a -> dom b -> JS.gt0 (cmp a b) = (key b <? key a).

Lemma insert_filter_key k x l :
  dom x -> Forall dom l ->
  filter (fun a => key a =? k) (insert cmp x l)
  = filter (fun a => key a =? k) (x :: l).
Proof.
  intros Hx Hl. induction Hl as [|y l Dy Dl IH]; [reflexivity|].
  cbn [insert]. rewrite (cmp_key x y Hx Dy).
  destruct (key y <? key x) eqn:E; [|reflexivity].
  apply Z.ltb_lt in E.
  cbn [filter] in *. rewrite IH.
  destruct (key x =? k) eqn:Ex, (key y =? k) eqn:Ey; try reflexivity.
  apply Z.eqb_eq in Ex, Ey. lia.
Qed.

Lemma sort_stable k l :
  Forall dom l ->
  filter (fun a => key a =? k) (sort cmp l) = filter (fun a => key a =? k) l.
Proof.
  induction l as [|x l IH]; intros H; [reflexivity|].
  inversion H as [|? ? Hx Hl]; subst. cbn [sort].
  rewrite insert_filter_key; [| assumption |].
  - cbn [filter]. now rewrite IH.
  - rewrite Forall_forall in *. intros z Hz. apply sort_In in Hz. auto.
Qed.
End StableByKey.


Lemma chart_compare_sign a b :
  is_month_year (monthYear a) = true -> is_month_year (monthYear b) = true ->
  JS.gt0 (chart_compare a b) = (chart_month b <? chart_month a).
Proof.
  intros Ha Hb.
  destruct (month_key_exact _ Ha) as (Ka & Ba & _).
  destruct (month_key_exact _ Hb) as (Kb & Bb & _).
  unfold chart_compare, chart_month. rewrite Ka, Kb.
  now apply gt0_difference.
Qed.

(** X1. [sortedData] of the charts is a rearrangement of the records;
    when their [monthYear] has the form [MM/YYYY] it is in chronological
    order, and records of one month keep the order they came in. *)
Theorem sortedData_chronological (data : list (DataRecord string)) :
  Permutation (sortedData data) data
  /\ (Forall (fun r => is_month_year (monthYear r) = true) data ->
      StronglySorted (fun a b => chart_month a <= chart_month b) (sortedData data)
      /\ forall k, filter (fun r => chart_month r =? k) (sortedData data)
                   = filter (fun r => chart_month r =? k) data).
Proof.
  split; [apply sort_perm|]. intros Hwf. split.
  - apply (sort_sorted chart_compare chart_month
             (fun r => is_month_year (monthYear r) = true));
      [intros a b; apply chart_compare_sign | exact Hwf].
  - intros k.
    apply (sort_stable chart_compare chart_month
             (fun r => is_month_year (monthYear r) = true));
      [intros a b; apply chart_compare_sign | exact Hwf].
Qed.

(** X2. [getFinancialInsight] answers with the fixed text when there is
    no API key or no record, whatever the remote model would say; its
    answer is never empty: it is one of the three fixed texts or the
    non-empty text the model returned. *)
Theorem getFinancialInsight_fallbacks api_key generateContent records :
  let answer := getFinancialInsight api_key generateContent records in
  (api_key = None \/ api_key = Some "" \/ records = [] ->
   answer = "Provide data to generate AI insights.")
  /\ answer <> ""
  /\ (answer = "Provide data to generate AI insights."
      \/ answer = "Error generating AI insights."
      \/ answer = "Insight unavailable."
      \/ generateContent (insight_prompt records) = AiResponse (Some answer)).
Proof.
  cbv zeta. unfold getFinancialInsight. split; [|split].
  - intros [-> | [-> | ->]]; try reflexivity.
    destruct api_key as [k|]; [|reflexivity]. now rewrite orb_true_r.
  - destruct (_ || _); [discriminate|].
    destruct (generateContent _) as [|[t|]]; try discriminate.
    destruct (String.eqb t "") eqn:E; [discriminate|].
    intros ->. discriminate.
  - destruct (_ || _); [auto|].
    destruct (generateContent _) as [|[t|]] eqn:G; auto.
    destruct (String.eqb t "") eqn:E; auto.
Qed.




Lemma chars_app s1 s2 : JS.chars (s1 ++ s2) = (JS.chars s1 ++ JS.chars s2)%list.
Proof. induction s1; simpl; congruence. Qed.

Lemma strip_insert s1 c s2 :
  keep_numeric c = false ->
  strip_non_numeric (s1 ++ String c s2) = strip_non_numeric (s1 ++ s2).
Proof.
  intros H. unfold strip_non_numeric.
  rewrite !chars_app, !filter_app. cbn [JS.chars filter]. now rewrite H.
Qed.

Lemma strip_idempotent s :
  strip_non_numeric (strip_non_numeric s) = strip_non_numeric s.
Proof.
  unfold strip_non_numeric. rewrite chars_text. f_equal.
  apply forallb_filter_id, forallb_filter.
Qed.

(** X4. A character that is not a digit, a point or a minus sign never
    changes what [parseCurrency] makes of a text, wherever it stands. *)
Theorem parseCurrency_ignores_symbols (s1 s2 : string) (c : ascii) :
  keep_numeric c = false ->
  parseCurrency (VString (s1 ++ String c s2)) = parseCurrency (VString (s1 ++ s2)).
Proof.
  intros H. rewrite !parseCurrency_string. now rewrite strip_insert.
Qed.

Lemma parseCurrency_ignores_symbols_witness :
  keep_numeric "$" = false
  /\ parseCurrency (VString ("" ++ String "$" "1,250.00"))
     = parseCurrency (VString ("" ++ "1,250.00")).
Proof.
  split; [reflexivity|].
  apply (parseCurrency_ignores_symbols "" "1,250.00" "$"). reflexivity.
Defined.

Theorem parseCurrency_of_stripped (s : string) :
  parseCurrency (VString (strip_non_numeric s)) = parseCurrency (VString s).
Proof. rewrite !parseCurrency_string. now rewrite strip_idempotent. Qed.

(** X5. The normaliser returns a record exactly for the elements that
    are neither [null] nor [undefined] and whose five amounts
    [parseCurrency] accepts; it then draws at most one random number. It
    throws on every other element, and then draws none. *)
Theorem normalize_total (item : value) (g : rng) :
  if normalizable item
  then exists r g', normalize item g = (Ok r, g') /\ (g' = g \/ g' = skip 1 g)
  else exists e, normalize item g = (Throw e, g).
Proof.
  destruct (normalizable item) eqn:E;
    [now apply normalize_ok | now apply normalize_throws].
Qed.

(** X6. [generateMockData] never throws and makes 100 draws; its records
    are the 5 names by the 5 months, names outermost, one record a pair;
    the id of the [k]-th record comes from draw [4 k + 3]; in every record
    [invoiceAmount] is [potentialRevenue * 0.85] and [netRevenue] is
    [dollarsCollected - expenseIncurred]. *)
Theorem generateMockData_grid (g : rng) :
  generateMockData g = (Ok (mock_rows g), skip 100 g)
  /\ map (fun r => (name r, monthYear r)) (mock_rows g)
     = list_prod mock_names mock_months
  /\ map id (mock_rows g)
     = map (fun k => JS.substr 2 9 (base36 (g (4 * k + 3)%nat))) (seq 0 25)
  /\ Forall (fun r =>
       invoiceAmount r = (potentialRevenue r * 0.85)%float
       /\ netRevenue r = (dollarsCollected r - expenseIncurred r)%float)
       (mock_rows g).
Proof.
  split; [reflexivity|]. split; [reflexivity|]. split; [reflexivity|].
  repeat (apply Forall_cons; [split; reflexivity|]). apply Forall_nil.
Qed.

Lemma uniqueNames_In records n :
  In n (uniqueNames records) <-> n = "All" \/ In n (map name records).
Proof.
  unfold uniqueNames. rewrite sort_In. cbn [In]. rewrite new_Set_In.
  intuition auto.
Qed.

Lemma uniqueMonths_In records m :
  In m (uniqueMonths records) <-> m = "All" \/ In m (map monthYear records).
Proof.
  unfold uniqueMonths. rewrite sort_In. cbn [In]. rewrite new_Set_In.
  intuition auto.
Qed.

(** X7. The name and the month of every record are among the options
    offered, and every option offered other than ["All"] selects at least
    one record. *)
Theorem offered_options_match (records : list (DataRecord string)) :
  (forall r, In r records ->
             In (name r) (uniqueNames records)
             /\ In (monthYear r) (uniqueMonths records))
  /\ (forall n, In n (uniqueNames records) -> n <> "All" ->
                exists r, In r (filteredData records n "All") /\ name r = n)
  /\ (forall m, In m (uniqueMonths records) -> m <> "All" ->
                exists r, In r (filteredData records "All" m) /\ monthYear r = m).
Proof.
  split; [|split].
  - intros r Hr. split.
    + apply uniqueNames_In. right. now apply in_map.
    + apply uniqueMonths_In. right. now apply in_map.
  - intros n Hn Hne. apply uniqueNames_In in Hn. destruct Hn as [->|Hn]; [easy|].
    apply in_map_iff in Hn. destruct Hn as (r & E & Hr).
    exists r. split; [|assumption]. apply filteredData_In. auto.
  - intros m Hm Hne. apply uniqueMonths_In in Hm. destruct Hm as [->|Hm]; [easy|].
    apply in_map_iff in Hm. destruct Hm as (r & E & Hr).
    exists r. split; [|assumption]. apply filteredData_In. auto.
Qed.


Lemma compare_trans_lt a b c :
  String.compare a b = Lt -> String.compare b c = Lt -> String.compare a c = Lt.
Proof.
  intros H1 H2.
  exact (@StrictOrder_Transitive _ _ OrdersEx.String_as_OT.lt_strorder a b c H1 H2).
Qed.

Lemma code_unit_le_trans a b c :
  code_unit_le a b -> code_unit_le b c -> code_unit_le a c.
Proof.
  unfold code_unit_le. intros H1 H2.
  destruct (String.compare a b) eqn:E1; [| |congruence].
  - apply String.compare_eq_iff in E1. now subst.
  - destruct (String.compare b c) eqn:E2; [| |congruence].
    + apply String.compare_eq_iff in E2. subst. congruence.
    + rewrite (compare_trans_lt _ _ _ E1 E2). discriminate.
Qed.

Lemma default_compare_sign x y :
  if JS.gt0 (default_compare x y) then code_unit_le y x else code_unit_le x y.
Proof.
  unfold default_compare, String.ltb, code_unit_le.
  rewrite (String.compare_antisym y x).
  destruct (String.compare x y); cbn [CompOpp].
  - change (JS.gt0 0%float) with false. cbv iota. discriminate.
  - change (JS.gt0 (-1)%float) with false. cbv iota. discriminate.
  - change (JS.gt0 1%float) with true. cbv iota. discriminate.
Qed.

Section SortedBy.
Context {A : Type} (cmp : A -> A -> JS.number) (le : A -> A -> Prop).
Hypothesis le_trans : forall a b c, le a b -> le b c -> le a c.
Hypothesis cmp_le :
  forall a b, if JS.gt0 (cmp a b) then le b a else le a b.

Lemma insert_sorted_by x l :
  StronglySorted le l -> StronglySorted le (insert cmp x l).
Proof.
  intros Hs. induction Hs as [|y l Hs IH Hy]; cbn [insert].
  - constructor; constructor.
  - pose proof (cmp_le x y) as Hc.
    destruct (JS.gt0 (cmp x y)).
    + constructor; [exact IH|].
      rewrite Forall_forall in *. intros z Hz.
      apply (Permutation_in _ (insert_perm cmp x l)) in Hz.
      destruct Hz as [<-|Hz]; [exact Hc | now apply Hy].
    + constructor; [now constructor|].
      constructor; [exact Hc|].
      rewrite Forall_forall in *. intros z Hz.
      eapply le_trans; [exact Hc | now apply Hy].
Qed.

Lemma sort_sorted_by l : StronglySorted le (sort cmp l).
Proof.
  induction l as [|x l IH]; cbn [sort]; [constructor|].
  now apply insert_sorted_by.
Qed.
End SortedBy.

(** X8. The name options are in code unit order, ["All"] included, and
    hold ["All"] and each distinct name. *)
Theorem uniqueNames_sorted (records : list (DataRecord string)) :
  StronglySorted code_unit_le (uniqueNames records)
  /\ Permutation (uniqueNames records) ("All" :: new_Set (map name records))
  /\ NoDup (new_Set (map name records))
  /\ (forall n, In n (new_Set (map name records)) <-> In n (map name records)).
Proof.
  split; [|split; [|split]].
  - apply (sort_sorted_by default_compare code_unit_le code_unit_le_trans
             default_compare_sign).
  - apply sort_perm.
  - apply new_Set_NoDup.
  - intros n. apply new_Set_In.
Qed.

Lemma filter_twice {A} (f g : A -> bool) l :
  filter f (filter g l) = filter (fun x => g x && f x) l.
Proof.
  induction l as [|x l IH]; [reflexivity|]. cbn [filter].
  destruct (g x); cbn [filter andb]; [destruct (f x)|]; now rewrite IH.
Qed.

(** X9. Filtering by name and then by month, or by month and then by
    name, is filtering by both; filtering twice by the same pair changes
    nothing. *)
Theorem filters_compose (records : list (DataRecord string)) (fn fm : string) :
  filteredData (filteredData records fn "All") "All" fm = filteredData records fn fm
  /\ filteredData (filteredData records "All" fm) fn "All" = filteredData records fn fm
  /\ filteredData (filteredData records fn fm) fn fm = filteredData records fn fm.
Proof.
  unfold filteredData. rewrite !filter_twice.
  repeat split; apply filter_ext; intros r; unfold matches;
    cbn [String.eqb Ascii.eqb Bool.eqb orb andb];
    destruct (String.eqb fn "All" || String.eqb (name r) fn),
             (String.eqb fm "All" || String.eqb (monthYear r) fm); reflexivity.
Qed.

(** X10. The [netRevenue] of a normalised record: the difference
    [dollarsCollected - expenseIncurred] when the field is [null], [0] when
    the field is absent, and the parsed field otherwise. *)
Theorem netRevenue_resolution (item : value) (g : rng) r g' :
  normalize item g = (Ok r, g') ->
  match read item "Net Revenue" with
  | VNull => netRevenue r = (dollarsCollected r - expenseIncurred r)%float
  | VUndefined => netRevenue r = 0%float
  | raw => parseCurrency raw = Ok (netRevenue r)
  end.
Proof.
  intros H. apply normalize_inv in H.
  destruct H as (_ & _ & _ & _ & _ & H & _).
  unfold net_of in H.
  destruct (read item "Net Revenue"); try exact H; now inversion H.
Qed.


Lemma netRevenue_resolution_witness :
  exists r g', normalize invoice_with_null sample_rng = (Ok r, g')
    /\ netRevenue r = (dollarsCollected r - expenseIncurred r)%float.
Proof.
  do 2 eexists. split; [reflexivity|].
  exact (netRevenue_resolution invoice_with_null sample_rng _ _ eq_refl).
Defined.



Lemma normalize_scalar data g :
  is_scalar data = true ->
  normalize data g
  = (Ok (default_record (JS.substr 2 9 (base36 (g O)))), skip 1 g).
Proof. destruct data; try discriminate; reflexivity. Qed.

(** X11. A successful response whose body is a single boolean, number or
    text is wrapped into a one-element collection and loads one record
    made of the defaults only, with [usingMockData] cleared. *)
Theorem scalar_body_loads_default_record
  (data : value) (code : Z) (st : AppState) (g : rng) :
  is_scalar data = true ->
  loaded (FetchResponse true code (Some data)) st g
  = {| rawData := [default_record (JS.substr 2 9 (base36 (g O)))];
       status := SUCCESS;
       usingMockData := false |}.
Proof.
  intros H. unfold loaded.
  assert (formattedData (FetchResponse true code (Some data)) g
          = (Ok [default_record (JS.substr 2 9 (base36 (g O)))], skip 1 g)) as E.
  { destruct data; try discriminate; reflexivity. }
  rewrite (fetchData_ok _ st _ _ _ E). reflexivity.
Qed.

Lemma scalar_body_witness :
  is_scalar (VNumber 42%float) = true
  /\ loaded (FetchResponse true 200 (Some (VNumber 42%float))) initial_state sample_rng
     = {| rawData := [default_record "i"]; status := SUCCESS; usingMockData := false |}.
Proof.
  split; [reflexivity|].
  exact (scalar_body_loads_default_record (VNumber 42%float) 200 initial_state
           sample_rng eq_refl).
Defined.

Lemma substring_length n m s :
  String.length (String.substring n m s) = Nat.min m (String.length s - n).
Proof.
  revert n m. induction s as [|c s IH]; intros n m.
  - destruct n, m; reflexivity.
  - destruct n as [|n].
    + destruct m as [|m]; [reflexivity|]. cbn [String.substring String.length].
      rewrite IH. rewrite !Nat.sub_0_r. reflexivity.
    + cbn [String.substring String.length]. rewrite IH. reflexivity.
Qed.

(** X12. A generated id is the text of the draw from its third
    character on, at most 9 characters; every id of the mock data has at
    most 9 characters. *)
Theorem generated_id_length (g : rng) :
  (exists s, random_id g = (Ok s, skip 1 g)
     /\ String.length s = Nat.min 9 (String.length (base36 (g O)) - 2))
  /\ Forall (fun r => (String.length (id r) <= 9)%nat) (mock_rows g).
Proof.
  split.
  - eexists. split; [reflexivity|]. apply substring_length.
  - repeat (apply Forall_cons;
            [cbn [id]; unfold JS.substr; rewrite substring_length; apply Nat.le_min_l|]).
    apply Forall_nil.
Qed.

Lemma NoDup_with_wildcard cmp l :
  NoDup (sort cmp ("All" :: new_Set l)) <-> ~ In "All" l.
Proof.
  assert (NoDup ("All" :: new_Set l) <-> ~ In "All" l) as H.
  { rewrite NoDup_cons_iff, new_Set_In. pose proof (new_Set_NoDup l). tauto. }
  rewrite <- H. split; apply Permutation_NoDup;
    [apply sort_perm | symmetry; apply sort_perm].
Qed.

(** X13. The name options are pairwise distinct exactly when no record is
    named ["All"], and the month options exactly when no record has the
    month ["All"]. *)
Theorem options_distinct_iff (records : list (DataRecord string)) :
  (NoDup (uniqueNames records) <-> ~ In "All" (map name records))
  /\ (NoDup (uniqueMonths records) <-> ~ In "All" (map monthYear records)).
Proof. split; apply NoDup_with_wildcard. Qed.

(** X14. The normaliser depends on [Math.random] through the id only:
    two runs on one element both throw, the same exception and without a
    draw, or both return, with the same name, month and amounts; when an
    id key holds a truthy value the two records are equal and no draw is
    made. *)
Theorem normalize_oracle_independent (item : value) (g1 g2 : rng) :
  match normalize item g1, normalize item g2 with
  | (Ok r1, g1'), (Ok r2, g2') =>
      name r1 = name r2 /\ monthYear r1 = monthYear r2
      /\ potentialRevenue r1 = potentialRevenue r2
      /\ invoiceAmount r1 = invoiceAmount r2
      /\ dollarsCollected r1 = dollarsCollected r2
      /\ expenseIncurred r1 = expenseIncurred r2
      /\ netRevenue r1 = netRevenue r2
      /\ (first_truthy [read item "Opportunity ID"; read item "id"; read item "key"]
          <> None -> r1 = r2 /\ g1' = g1 /\ g2' = g2)
  | (Throw e1, g1'), (Throw e2, g2') => e1 = e2 /\ g1' = g1 /\ g2' = g2
  | _, _ => False
  end.
Proof.
  destruct (is_nullish item) eqn:Hn.
  { rewrite !(normalize_nullish _ _ Hn). auto. }
  rewrite !(normalize_eq _ _ Hn).
  destruct (parseCurrency (read item "Potential Revenue")); [|auto].
  destruct (parseCurrency (read item "Invoice Amount")); [|auto].
  destruct (parseCurrency (read item "Dollars Collected")) as [coll|]; [|auto].
  destruct (parseCurrency (read item "Expense Incurred")) as [exp|]; [|auto].
  destruct (net_of (read item "Net Revenue") coll exp); [|auto].
  cbv zeta.
  cbn [id name potentialRevenue invoiceAmount dollarsCollected expenseIncurred
       netRevenue monthYear].
  repeat split; try reflexivity;
    destruct (first_truthy _); try reflexivity; now elim H.
Qed.
